(** * Web Stories: opacity field, inspector provider and analytics emitter

    A shallow embedding of three units of the plugin:

    - [OpacityPreview] (React component, editor colour picker),
    - [InspectorProvider] (React context provider, editor inspector),
    - [Analytics] (PHP class printing the <amp-analytics> configuration).

    The first part of the file holds the definitions, the later parts the
    properties proved about them. *)

From Stdlib Require Import ZArith List String Ascii Bool Lia SpecFloat DecimalString.
Import ListNotations.

Local Open Scope string_scope.
Local Open Scope Z_scope.

(* ================================================================== *)
(** * Part I: definitions *)
(* ================================================================== *)

(** The decimal numeral of an integer. *)
Definition decimal (i : Z) : string := NilZero.string_of_int (Z.to_int i).

(** ** JavaScript numbers and [parseInt]

    A Number is an IEEE-754 binary64 value.  Strings are sequences of code
    units; the embedding covers code units below 256 (one [ascii] each). *)

Module JS.

Definition Number : Type := spec_float.

Definition prec : Z := 53.
Definition emax : Z := 1024.

Definition NaN : Number := S754_nan.

(** The Number value for a mathematical integer (round to nearest, ties to
    even). *)
Definition of_Z (n : Z) : Number := binary_normalize prec emax n 0 false.

(** The [/] operator on Numbers. *)
Definition div (x y : Number) : Number := SFdiv prec emax x y.

Definition isNaN (x : Number) : bool :=
  match x with
  | S754_nan => true
  | _ => false
  end.

Definition code (c : ascii) : Z := Z.of_N (N_of_ascii c).

(** WhiteSpace and LineTerminator code units below 256: TAB, LF, VT, FF, CR,
    SP and NBSP. *)
Definition is_white_space (c : ascii) : bool :=
  let n := code c in
  ((9 <=? n) && (n <=? 13)) || (n =? 32) || (n =? 160).

Fixpoint trim_start (s : string) : string :=
  match s with
  | String c s' => if is_white_space c then trim_start s' else s
  | EmptyString => s
  end.

(** Value of a digit: 0-9, then a-z and A-Z for 10-35. *)
Definition digit_value (c : ascii) : option Z :=
  let n := code c in
  if (48 <=? n) && (n <=? 57) then Some (n - 48)
  else if (97 <=? n) && (n <=? 122) then Some (n - 87)
  else if (65 <=? n) && (n <=? 90) then Some (n - 55)
  else None.

(** The digits of the longest prefix of [s] made of radix-[R] digits. *)
Fixpoint radix_digits (R : Z) (s : string) : list Z :=
  match s with
  | String c s' =>
      match digit_value c with
      | Some d => if d <? R then d :: radix_digits R s' else []
      | None => []
      end
  | EmptyString => []
  end.

Definition mathInt (R : Z) (ds : list Z) : Z :=
  fold_left (fun acc d => acc * R + d) ds 0.

(** [parseInt(string)] with the radix argument left undefined. *)
Definition parseInt (inputString : string) : Number :=
  let trimmed := trim_start inputString in
  let '(sign, unsigned) :=
    match trimmed with
    | String "-" rest => (-1, rest)
    | String "+" rest => (1, rest)
    | _ => (1, trimmed)
    end in
  let '(R, body) :=
    match unsigned with
    | String "0" (String "x" rest) => (16, rest)
    | String "0" (String "X" rest) => (16, rest)
    | _ => (10, unsigned)
    end in
  match radix_digits R body with
  | [] => NaN
  | ds =>
      let m := mathInt R ds in
      if m =? 0 then S754_zero (sign =? -1) else of_Z (sign * m)
  end.

(** Values that flow through the truthiness test of [filter]. *)
Inductive value :=
| undefined
| null
| boolean (b : bool)
| number (n : Z)
| text (s : string).

(** ToBoolean *)
Definition truthy (v : value) : bool :=
  match v with
  | undefined | null => false
  | boolean b => b
  | number n => negb (n =? 0)
  | text s => negb (String.eqb s EmptyString)
  end.

(** An object used as a record of properties: its own enumerable properties
    in property order. *)
Definition object (A : Type) : Type := list (string * A).

Definition Object_values {A : Type} (o : object A) : list A := map snd o.

End JS.

(** ** OpacityPreview (src/unnamed/part_000) *)

Module OpacityPreview.

Section Component.

(** The type of the [value] prop (a colour pattern). *)
Variable Pattern : Type.
(** [Boolean(getPreviewText(value))]; the helper is imported, not defined
    here. *)
Variable hasPreviewText : Pattern -> bool.
(** [getPreviewOpacity], imported; its result as the text the field holds. *)
Variable getPreviewOpacity : Pattern -> string.
(** [_x('%', 'Percentage', 'web-stories')] *)
Variable postfix : string.

(** The two [useState] cells. *)
Record State := {
  inputValue : string;
  hasPostfix : bool;
}.

Definition setInputValue (v : string) (st : State) : State :=
  {| inputValue := v; hasPostfix := hasPostfix st |}.

Definition setHasPostfix (b : bool) (st : State) : State :=
  {| inputValue := inputValue st; hasPostfix := b |}.

Definition enablePostfix : State -> State := setHasPostfix true.
Definition disablePostfix : State -> State := setHasPostfix false.

(** [handleChange]: the new state and the arguments [onChange] was called
    with during the handler, in order. *)
Definition handleChange (target_value : string) (st : State)
  : State * list JS.Number :=
  let st := setInputValue target_value st in
  let val := JS.div (JS.parseInt target_value) (JS.of_Z 100) in
  if negb (JS.isNaN val) then (st, [val]) else (st, []).

Definition updateFromValue (value : Pattern) (st : State) : State :=
  setInputValue (getPreviewOpacity value) st.

Definition handleBlur (value : Pattern) (st : State) : State :=
  updateFromValue value (enablePostfix st).

(** The props of the rendered <Input>. *)
Record Input := {
  isVisible : bool;
  Input_value : string;
}.

Definition render (value : Pattern) (st : State) : Input :=
  {| isVisible := hasPreviewText value;
     Input_value :=
       if hasPostfix st then inputValue st ++ postfix else inputValue st |}.

(** A mounted component: the current [value] prop and the hook state. *)
Record Mounted := {
  value : Pattern;
  state : State;
}.

(** Mounting runs the effect [useEffect(() => updateFromValue(), ...)]
    once. *)
Definition mount (v : Pattern) : Mounted :=
  {| value := v;
     state := updateFromValue v
                {| inputValue := EmptyString; hasPostfix := true |} |}.

Inductive event :=
| Change (target_value : string)
| Focus
| Blur
| ValueChanged (v : Pattern).

(** One event: the next component and the [onChange] calls it made. *)
Definition step (e : event) (w : Mounted) : Mounted * list JS.Number :=
  match e with
  | Change s =>
      let '(st, calls) := handleChange s (state w) in
      ({| value := value w; state := st |}, calls)
  | Focus => ({| value := value w; state := disablePostfix (state w) |}, [])
  | Blur => ({| value := value w; state := handleBlur (value w) (state w) |}, [])
  | ValueChanged v => ({| value := v; state := updateFromValue v (state w) |}, [])
  end.

Fixpoint run (es : list event) (w : Mounted) : Mounted * list JS.Number :=
  match es with
  | [] => (w, [])
  | e :: es' =>
      let '(w1, c1) := step e w in
      let '(w2, c2) := run es' w1 in
      (w2, (c1 ++ c2)%list)
  end.

(** The value prop in force after a run of events. *)
Fixpoint last_value (es : list event) (v : Pattern) : Pattern :=
  match es with
  | [] => v
  | ValueChanged v' :: es' => last_value es' v'
  | _ :: es' => last_value es' v
  end.

Definition displayed (w : Mounted) : string :=
  Input_value (render (value w) (state w)).

End Component.

Arguments value {Pattern}.
Arguments state {Pattern}.
Arguments Change {Pattern}.
Arguments Focus {Pattern}.
Arguments Blur {Pattern}.
Arguments ValueChanged {Pattern}.
Arguments last_value {Pattern}.

End OpacityPreview.

(** ** InspectorProvider
    (src/assets/src/edit-story/components/inspector/inspectorProvider.js) *)

Module Inspector.

Definition DESIGN : string := "design".
Definition DOCUMENT : string := "document".
Definition PREPUBLISH : string := "prepublish".

(** A record of the statuses endpoint. *)
Module StatusRecord.
Record t := {
  slug : string;
  name : string;
  show_in_list : JS.value;
}.
End StatusRecord.

(** A record of the users endpoint. *)
Module UserRecord.
Record t := {
  id : Z;
  name : string;
}.
End UserRecord.

(** The saved [{ value, name }] objects. *)
Module SelectOption.
Record t (V : Type) := {
  value : V;
  name : string;
}.
Arguments value {V}.
Arguments name {V}.
End SelectOption.

(** The [useState] cells of the provider. *)
Record State := {
  tab : string;
  users : list (SelectOption.t Z);
  statuses : list (SelectOption.t string);
  inspectorContentHeight : option JS.Number;
  isUsersLoading : bool;
  isStatusesLoading : bool;
}.

Definition setTab (t : string) (c : State) : State :=
  {| tab := t; users := users c; statuses := statuses c;
     inspectorContentHeight := inspectorContentHeight c;
     isUsersLoading := isUsersLoading c;
     isStatusesLoading := isStatusesLoading c |}.

Definition setUsers (u : list (SelectOption.t Z)) (c : State) : State :=
  {| tab := tab c; users := u; statuses := statuses c;
     inspectorContentHeight := inspectorContentHeight c;
     isUsersLoading := isUsersLoading c;
     isStatusesLoading := isStatusesLoading c |}.

Definition setStatuses (s : list (SelectOption.t string)) (c : State) : State :=
  {| tab := tab c; users := users c; statuses := s;
     inspectorContentHeight := inspectorContentHeight c;
     isUsersLoading := isUsersLoading c;
     isStatusesLoading := isStatusesLoading c |}.

Definition setInspectorContentHeight (h : JS.Number) (c : State) : State :=
  {| tab := tab c; users := users c; statuses := statuses c;
     inspectorContentHeight := Some h;
     isUsersLoading := isUsersLoading c;
     isStatusesLoading := isStatusesLoading c |}.

Definition setIsUsersLoading (b : bool) (c : State) : State :=
  {| tab := tab c; users := users c; statuses := statuses c;
     inspectorContentHeight := inspectorContentHeight c;
     isUsersLoading := b;
     isStatusesLoading := isStatusesLoading c |}.

Definition setIsStatusesLoading (b : bool) (c : State) : State :=
  {| tab := tab c; users := users c; statuses := statuses c;
     inspectorContentHeight := inspectorContentHeight c;
     isUsersLoading := isUsersLoading c;
     isStatusesLoading := b |}.

Definition initialState : State :=
  {| tab := DESIGN; users := []; statuses := [];
     inspectorContentHeight := None;
     isUsersLoading := false; isStatusesLoading := false |}.

(** An array held by reference: effect dependencies compare the reference,
    not the elements. *)
Record ArrayRef := {
  address : nat;
  elements : list string;
}.

(** What [useStory] hands to a render; the page is compared by reference
    only. *)
Record StoryState := {
  selectedElementIds : ArrayRef;
  currentPage : nat;
}.

(** A mounted provider.

    [cells] holds the latest value given to each state setter; [rendered]
    holds the values the most recent render read, which are the values its
    callbacks ([loadStatuses], [loadUsers]) close over.  The [deps_] fields
    remember the dependencies each effect last ran with; the counters record
    how often the injected fetch capabilities were invoked and how many
    promises are still pending. *)
Record Provider := {
  cells : State;
  rendered : State;
  tabRef : string;
  deps_tab : option string;
  deps_selectedElementIds : option ArrayRef;
  deps_currentPage : option nat;
  getAllStatuses_calls : nat;
  getAllUsers_calls : nat;
  statuses_pending : nat;
  users_pending : nat;
}.

Definition with_cells (c : State) (w : Provider) : Provider :=
  {| cells := c; rendered := rendered w; tabRef := tabRef w;
     deps_tab := deps_tab w;
     deps_selectedElementIds := deps_selectedElementIds w;
     deps_currentPage := deps_currentPage w;
     getAllStatuses_calls := getAllStatuses_calls w;
     getAllUsers_calls := getAllUsers_calls w;
     statuses_pending := statuses_pending w;
     users_pending := users_pending w |}.

(** The provider before its first render. *)
Definition unmounted : Provider :=
  {| cells := initialState; rendered := initialState; tabRef := DESIGN;
     deps_tab := None; deps_selectedElementIds := None;
     deps_currentPage := None;
     getAllStatuses_calls := 0; getAllUsers_calls := 0;
     statuses_pending := 0; users_pending := 0 |}.

(** Whether an effect runs: on the first render, and whenever its dependency
    differs from the one of the previous render. *)
Definition changed {A : Type} (same : A -> A -> bool) (prev : option A) (cur : A)
  : bool :=
  match prev with
  | None => true
  | Some p => negb (same p cur)
  end.

Definition same_ref (a b : ArrayRef) : bool := Nat.eqb (address a) (address b).

(** [useEffect(() => { tabRef.current = tab; }, [tab])] *)
Definition effect_tab (r : State) (w : Provider) : Provider :=
  {| cells := cells w; rendered := rendered w;
     tabRef := if changed String.eqb (deps_tab w) (tab r) then tab r
               else tabRef w;
     deps_tab := Some (tab r);
     deps_selectedElementIds := deps_selectedElementIds w;
     deps_currentPage := deps_currentPage w;
     getAllStatuses_calls := getAllStatuses_calls w;
     getAllUsers_calls := getAllUsers_calls w;
     statuses_pending := statuses_pending w;
     users_pending := users_pending w |}.

(** The effect on [[selectedElementIds]]. *)
Definition effect_selectedElementIds (s : StoryState) (w : Provider) : Provider :=
  let ids := selectedElementIds s in
  let c :=
    if changed same_ref (deps_selectedElementIds w) ids then
      if (0 <? List.length (elements ids))%nat && String.eqb (tabRef w) DOCUMENT
      then setTab DESIGN (cells w)
      else cells w
    else cells w in
  {| cells := c; rendered := rendered w; tabRef := tabRef w;
     deps_tab := deps_tab w;
     deps_selectedElementIds := Some ids;
     deps_currentPage := deps_currentPage w;
     getAllStatuses_calls := getAllStatuses_calls w;
     getAllUsers_calls := getAllUsers_calls w;
     statuses_pending := statuses_pending w;
     users_pending := users_pending w |}.

(** The effect on [[currentPage]]. *)
Definition effect_currentPage (s : StoryState) (w : Provider) : Provider :=
  let c :=
    if changed Nat.eqb (deps_currentPage w) (currentPage s) then
      if String.eqb (tabRef w) DOCUMENT then setTab DESIGN (cells w)
      else cells w
    else cells w in
  {| cells := c; rendered := rendered w; tabRef := tabRef w;
     deps_tab := deps_tab w;
     deps_selectedElementIds := deps_selectedElementIds w;
     deps_currentPage := Some (currentPage s);
     getAllStatuses_calls := getAllStatuses_calls w;
     getAllUsers_calls := getAllUsers_calls w;
     statuses_pending := statuses_pending w;
     users_pending := users_pending w |}.

(** One render of [InspectorProvider]: the hooks read the cells, then the
    effects run in the order they are declared. *)
Definition render (s : StoryState) (w : Provider) : Provider :=
  let r := cells w in
  let w :=
    {| cells := cells w; rendered := r; tabRef := tabRef w;
       deps_tab := deps_tab w;
       deps_selectedElementIds := deps_selectedElementIds w;
       deps_currentPage := deps_currentPage w;
       getAllStatuses_calls := getAllStatuses_calls w;
       getAllUsers_calls := getAllUsers_calls w;
       statuses_pending := statuses_pending w;
       users_pending := users_pending w |} in
  effect_currentPage s (effect_selectedElementIds s (effect_tab r w)).

(** [loadStatuses], as created by the most recent render. *)
Definition loadStatuses (w : Provider) : Provider :=
  let r := rendered w in
  if negb (isStatusesLoading r) && (List.length (statuses r) =? 0)%nat then
    {| cells := setIsStatusesLoading true (cells w);
       rendered := rendered w; tabRef := tabRef w;
       deps_tab := deps_tab w;
       deps_selectedElementIds := deps_selectedElementIds w;
       deps_currentPage := deps_currentPage w;
       getAllStatuses_calls := S (getAllStatuses_calls w);
       getAllUsers_calls := getAllUsers_calls w;
       statuses_pending := S (statuses_pending w);
       users_pending := users_pending w |}
  else w.

(** [loadUsers], as created by the most recent render. *)
Definition loadUsers (w : Provider) : Provider :=
  let r := rendered w in
  if negb (isUsersLoading r) && (List.length (users r) =? 0)%nat then
    {| cells := setIsUsersLoading true (cells w);
       rendered := rendered w; tabRef := tabRef w;
       deps_tab := deps_tab w;
       deps_selectedElementIds := deps_selectedElementIds w;
       deps_currentPage := deps_currentPage w;
       getAllStatuses_calls := getAllStatuses_calls w;
       getAllUsers_calls := S (getAllUsers_calls w);
       statuses_pending := statuses_pending w;
       users_pending := S (users_pending w) |}
  else w.

(** The [.then] callback of [loadStatuses]. *)
Definition statuses_then (data : JS.object StatusRecord.t) (c : State) : State :=
  let data := JS.Object_values data in
  let data := filter (fun d => JS.truthy (StatusRecord.show_in_list d)) data in
  let saveData :=
    map (fun d => {| SelectOption.value := StatusRecord.slug d;
                     SelectOption.name := StatusRecord.name d |}) data in
  setStatuses saveData c.

(** The [.then] callback of [loadUsers]. *)
Definition users_then (data : list UserRecord.t) (c : State) : State :=
  let saveData :=
    map (fun d => {| SelectOption.value := UserRecord.id d;
                     SelectOption.name := UserRecord.name d |}) data in
  setUsers saveData c.

(** How a promise settles. *)
Inductive outcome (A : Type) :=
| Resolved (data : A)
| Rejected.
Arguments Resolved {A}.
Arguments Rejected {A}.

(** A pending [getAllStatuses()] promise settles: [.then] runs on
    fulfilment only, [.finally] in both cases. *)
Definition settleStatuses (o : outcome (JS.object StatusRecord.t)) (w : Provider)
  : Provider :=
  match statuses_pending w with
  | O => w
  | S n =>
      let c := match o with
               | Resolved data => statuses_then data (cells w)
               | Rejected => cells w
               end in
      {| cells := setIsStatusesLoading false c;
         rendered := rendered w; tabRef := tabRef w;
         deps_tab := deps_tab w;
         deps_selectedElementIds := deps_selectedElementIds w;
         deps_currentPage := deps_currentPage w;
         getAllStatuses_calls := getAllStatuses_calls w;
         getAllUsers_calls := getAllUsers_calls w;
         statuses_pending := n;
         users_pending := users_pending w |}
  end.

(** A pending [getAllUsers()] promise settles. *)
Definition settleUsers (o : outcome (list UserRecord.t)) (w : Provider)
  : Provider :=
  match users_pending w with
  | O => w
  | S n =>
      let c := match o with
               | Resolved data => users_then data (cells w)
               | Rejected => cells w
               end in
      {| cells := setIsUsersLoading false c;
         rendered := rendered w; tabRef := tabRef w;
         deps_tab := deps_tab w;
         deps_selectedElementIds := deps_selectedElementIds w;
         deps_currentPage := deps_currentPage w;
         getAllStatuses_calls := getAllStatuses_calls w;
         getAllUsers_calls := getAllUsers_calls w;
         statuses_pending := statuses_pending w;
         users_pending := n |}
  end.

(** What can happen to a mounted provider. *)
Inductive event :=
| Render (s : StoryState)
| SetTab (t : string)
| LoadStatuses
| LoadUsers
| SettleStatuses (o : outcome (JS.object StatusRecord.t))
| SettleUsers (o : outcome (list UserRecord.t))
| Resize (height : JS.Number).

Definition step (e : event) (w : Provider) : Provider :=
  match e with
  | Render s => render s w
  | SetTab t => with_cells (setTab t (cells w)) w
  | LoadStatuses => loadStatuses w
  | LoadUsers => loadUsers w
  | SettleStatuses o => settleStatuses o w
  | SettleUsers o => settleUsers o w
  | Resize h => with_cells (setInspectorContentHeight h (cells w)) w
  end.

Definition run (es : list event) (w : Provider) : Provider :=
  fold_left (fun w e => step e w) es w.

(** Mounting is the first render. *)
Definition mount (s : StoryState) : Provider := render s unmounted.

(** The providers a lifetime can reach. *)
Inductive reachable : Provider -> Prop :=
| reachable_mount : forall s, reachable (mount s)
| reachable_step : forall e w, reachable w -> reachable (step e w).

(** Events that neither call [loadStatuses] nor settle its promise. *)
Definition not_statuses (e : event) : bool :=
  match e with
  | LoadStatuses | SettleStatuses _ => false
  | _ => true
  end.

(** Events that neither call [loadUsers] nor settle its promise. *)
Definition not_users (e : event) : bool :=
  match e with
  | LoadUsers | SettleUsers _ => false
  | _ => true
  end.

(** What events other than [loadStatuses] and the settlement of its promise
    preserve. *)
Record same_statuses (w w' : Provider) : Prop := {
  same_isStatusesLoading :
    isStatusesLoading (cells w') = isStatusesLoading (cells w);
  same_statuses_list : statuses (cells w') = statuses (cells w);
  same_statuses_calls : getAllStatuses_calls w' = getAllStatuses_calls w;
  same_statuses_pending : statuses_pending w' = statuses_pending w;
}.

(** Likewise for [loadUsers]. *)
Record same_users (w w' : Provider) : Prop := {
  same_isUsersLoading : isUsersLoading (cells w') = isUsersLoading (cells w);
  same_users_list : users (cells w') = users (cells w);
  same_users_calls : getAllUsers_calls w' = getAllUsers_calls w;
  same_users_pending : users_pending w' = users_pending w;
}.

(** The effect on [[tab]] keeps [tabRef] equal to the tab of the latest
    render, throughout the lifetime of the provider. *)
Definition tabRef_in_sync (w : Provider) : Prop :=
  deps_tab w = Some (tabRef w) /\
  deps_selectedElementIds w <> None /\
  deps_currentPage w <> None.

End Inspector.

(** ** PHP values and arrays

    Values are null, booleans, integers, strings and arrays; an array is an
    ordered map from integer or string keys to values, kept as the list of
    its entries in order (keys pairwise distinct).  An operation that PHP
    answers with a type diagnostic returns [None]. *)

Module PHP.

Inductive key :=
| KInt (i : Z)
| KStr (s : string).

#[warnings="-register-all"] Inductive val :=
| PNull
| PBool (b : bool)
| PInt (i : Z)
| PStr (s : string)
| PArr (a : list (key * val)).

Definition array : Type := list (key * val).

Definition key_eqb (a b : key) : bool :=
  match a, b with
  | KInt i, KInt j => i =? j
  | KStr s, KStr t => String.eqb s t
  | _, _ => false
  end.

Fixpoint array_get (a : array) (k : key) : option val :=
  match a with
  | [] => None
  | (k', v) :: r => if key_eqb k' k then Some v else array_get r k
  end.

(** [$a[k] = v]: overwrite in place, or append. *)
Fixpoint array_set (a : array) (k : key) (v : val) : array :=
  match a with
  | [] => [(k, v)]
  | (k', v') :: r =>
      if key_eqb k' k then (k', v) :: r else (k', v') :: array_set r k v
  end.

(** An array literal [[ k1 => v1, k2 => v2, ... ]]. *)
Definition array_lit (l : list (key * val)) : array :=
  fold_left (fun a kv => array_set a (fst kv) (snd kv)) l [].

(** [$a[k]] read from an array: null when the key is absent. *)
Definition read (a : array) (k : key) : val :=
  match array_get a k with
  | Some v => v
  | None => PNull
  end.

(** [isset($a[k])] *)
Definition isset (a : array) (k : key) : bool :=
  match array_get a k with
  | Some PNull | None => false
  | Some _ => true
  end.

(** [$v['name']] read from any value, for a name that is not numeric: null on
    null, booleans and integers; a type diagnostic on strings. *)
Definition offset (v : val) (name : string) : option val :=
  match v with
  | PArr a => Some (read a (KStr name))
  | PStr _ => None
  | _ => Some PNull
  end.

(** [is_array] *)
Definition is_array (v : val) : bool :=
  match v with
  | PArr _ => true
  | _ => false
  end.

(** The [(array)] cast. *)
Definition to_array (v : val) : array :=
  match v with
  | PArr a => a
  | PNull => []
  | _ => [(KInt 0, v)]
  end.

(** The [(string)] cast. *)
Definition to_string (v : val) : string :=
  match v with
  | PNull => EmptyString
  | PBool true => "1"
  | PBool false => EmptyString
  | PInt i => decimal i
  | PStr s => s
  | PArr _ => "Array"
  end.

(** Truth value of a string: only the empty string and "0" are false. *)
Definition string_to_bool (s : string) : bool :=
  negb (String.eqb s EmptyString || String.eqb s "0").

Definition is_digit (c : ascii) : bool :=
  (48 <=? JS.code c) && (JS.code c <=? 57).

Fixpoint all_digits (s : string) : bool :=
  match s with
  | EmptyString => true
  | String c r => is_digit c && all_digits r
  end.

Fixpoint decimal_value (s : string) (acc : Z) : Z :=
  match s with
  | EmptyString => acc
  | String c r => decimal_value r (acc * 10 + (JS.code c - 48))
  end.

Definition PHP_INT_MAX : Z := 9223372036854775807.
Definition PHP_INT_MIN : Z := -9223372036854775808.

(** A string key that is a decimal integer in canonical form (no leading
    zero, no "-0", within the integer range) is the integer key. *)
Definition key_of_string (s : string) : key :=
  let '(neg, body) :=
    match s with
    | String "-" r => (true, r)
    | _ => (false, s)
    end in
  match body with
  | EmptyString => KStr s
  | String c r =>
      if all_digits body
         && negb (Ascii.eqb c "0" && negb (String.eqb r EmptyString && negb neg))
      then
        let v := if neg then - decimal_value body 0 else decimal_value body 0 in
        if (PHP_INT_MIN <=? v) && (v <=? PHP_INT_MAX) then KInt v else KStr s
      else KStr s
  end.

(** The key a value stands for in [[ $v => ... ]]; arrays are no keys. *)
Definition key_of_value (v : val) : option key :=
  match v with
  | PNull => Some (KStr EmptyString)
  | PBool b => Some (KInt (if b then 1 else 0))
  | PInt i => Some (KInt i)
  | PStr s => Some (key_of_string s)
  | PArr _ => None
  end.

(** [array_merge] adds the entries of one array to the result so far:
    a string key overwrites the entry of that key or is appended, an integer
    key is renumbered and appended. *)
Fixpoint merge_into (acc : array) (next : Z) (l : array) : array * Z :=
  match l with
  | [] => (acc, next)
  | (KInt _, v) :: r => merge_into (acc ++ [(KInt next, v)])%list (next + 1) r
  | (KStr s, v) :: r => merge_into (array_set acc (KStr s) v) next r
  end.

Definition array_merge (a b : val) : option val :=
  match a, b with
  | PArr x, PArr y =>
      let '(r, n) := merge_into [] 0 x in
      Some (PArr (fst (merge_into r n y)))
  | _, _ => None
  end.

(** [in_array( $needle, $haystack, true )] for a string needle. *)
Definition in_array_strict (needle : string) (haystack : array) : bool :=
  existsb (fun kv => match snd kv with
                     | PStr s => String.eqb s needle
                     | _ => false
                     end) haystack.

(** The entries of an array under keys other than [k], in order. *)
Definition without (k : key) (a : array) : array :=
  filter (fun kv => negb (key_eqb (fst kv) k)) a.

(** [$a[k]] is unset (or null), or holds an array. *)
Definition array_or_unset (a : array) (k : key) : bool :=
  negb (isset a k) || is_array (read a k).

(** The values an array holds under integer keys, in order. *)
Fixpoint numbered (a : array) : list val :=
  match a with
  | [] => []
  | (KInt _, v) :: r => v :: numbered r
  | (KStr _, _) :: r => numbered r
  end.

End PHP.

(** ** Analytics (src/unnamed/part_001) *)

Module Analytics.

Import PHP.

(** The WordPress installation the class runs in. *)
Record WordPress := {
  (** [defined( 'GOOGLESITEKIT_VERSION' )] *)
  GOOGLESITEKIT_VERSION : bool;
  (** [get_option]; [false] for an option that does not exist *)
  get_option : string -> val;
  (** [is_singular( $post_type )] *)
  is_singular : string -> bool;
  (** the callbacks hooked on the filter
      [web_stories_analytics_configuration], in the order they run *)
  web_stories_analytics_configuration : list (val -> val);
}.

(** The printed element; [script] is the value given to [wp_json_encode],
    whose JSON text is the body of the <script>. *)
Record amp_analytics := {
  attr_type : string;
  attr_data_credentials : string;
  script : array;
}.

Notation "k ==> v" := (KStr k, v) (at level 70, no associativity).

Definition arr (l : list (key * val)) : val := PArr (array_lit l).

Section Class.

(** [Settings::SETTING_NAME_TRACKING_ID] *)
Variable SETTING_NAME_TRACKING_ID : string.
(** [Story_Post_Type::POST_TYPE_SLUG] *)
Variable POST_TYPE_SLUG : string.

Variable wp : WordPress.

Definition get_site_kit_active_modules_option : array :=
  if negb (GOOGLESITEKIT_VERSION wp) then []
  else
    let option := get_option wp "googlesitekit_active_modules" in
    if is_array option then to_array option
    else
      let legacy_option := get_option wp "googlesitekit-active-modules" in
      if is_array legacy_option then to_array legacy_option
      else [].

Definition is_site_kit_analytics_module_active : bool :=
  let modules := get_site_kit_active_modules_option in
  in_array_strict "analytics" modules.

Definition get_tracking_id : string :=
  to_string (get_option wp SETTING_NAME_TRACKING_ID).

(** [apply_filters( 'web_stories_analytics_configuration', $config )] *)
Definition apply_filters (config : val) : val :=
  fold_left (fun v callback => callback v)
            (web_stories_analytics_configuration wp) config.

(** The ['triggers'] literal of [get_default_configuration]. *)
Definition default_triggers (tracking_id : val) : val :=
  arr [
    "storyProgress" ==> arr [
      "on" ==> PStr "story-page-visible";
      "request" ==> PStr "event";
      "vars" ==> arr [
        "event_name" ==> PStr "custom";
        "event_action" ==> PStr "story_progress";
        "event_category" ==> PStr "${title}";
        "event_label" ==> PStr "${storyPageIndex}";
        "event_value" ==> PStr "${storyProgress}";
        "send_to" ==> tracking_id ] ];
    "storyEnd" ==> arr [
      "on" ==> PStr "story-last-page-visible";
      "request" ==> PStr "event";
      "vars" ==> arr [
        "event_name" ==> PStr "custom";
        "event_action" ==> PStr "story_complete";
        "event_category" ==> PStr "${title}";
        "event_label" ==> PStr "${storyPageCount}";
        "send_to" ==> tracking_id ] ];
    "trackFocusState" ==> arr [
      "on" ==> PStr "story-focus";
      "tagName" ==> PStr "a";
      "request" ==> PStr "click ";
      "vars" ==> arr [
        "event_name" ==> PStr "custom";
        "event_action" ==> PStr "story_focus";
        "event_category" ==> PStr "${title}";
        "send_to" ==> tracking_id ] ];
    "trackClickThrough" ==> arr [
      "on" ==> PStr "story-click-through";
      "tagName" ==> PStr "a";
      "request" ==> PStr "click ";
      "vars" ==> arr [
        "event_name" ==> PStr "custom";
        "event_action" ==> PStr "story_click_through";
        "event_category" ==> PStr "${title}";
        "send_to" ==> tracking_id ] ];
    "storyOpen" ==> arr [
      "on" ==> PStr "story-open";
      "request" ==> PStr "event";
      "vars" ==> arr [
        "event_name" ==> PStr "custom";
        "event_action" ==> PStr "story_open";
        "event_category" ==> PStr "${title}";
        "send_to" ==> tracking_id ] ];
    "storyClose" ==> arr [
      "on" ==> PStr "story-close";
      "request" ==> PStr "event";
      "vars" ==> arr [
        "event_name" ==> PStr "custom";
        "event_action" ==> PStr "story_close";
        "event_category" ==> PStr "${title}";
        "send_to" ==> tracking_id ] ];
    "audioMuted" ==> arr [
      "on" ==> PStr "story-audio-muted";
      "request" ==> PStr "event";
      "vars" ==> arr [
        "event_name" ==> PStr "custom";
        "event_action" ==> PStr "story_audio_muted";
        "event_category" ==> PStr "${title}";
        "send_to" ==> tracking_id ] ];
    "audioUnmuted" ==> arr [
      "on" ==> PStr "story-audio-unmuted";
      "request" ==> PStr "event";
      "vars" ==> arr [
        "event_name" ==> PStr "custom";
        "event_action" ==> PStr "story_audio_unmuted";
        "event_category" ==> PStr "${title}";
        "send_to" ==> tracking_id ] ];
    "pageAttachmentEnter" ==> arr [
      "on" ==> PStr "story-page-attachment-enter";
      "request" ==> PStr "event";
      "vars" ==> arr [
        "event_name" ==> PStr "custom";
        "event_action" ==> PStr "story_page_attachment_enter";
        "event_category" ==> PStr "${title}";
        "send_to" ==> tracking_id ] ];
    "pageAttachmentExit" ==> arr [
      "on" ==> PStr "story-page-attachment-exit";
      "request" ==> PStr "event";
      "vars" ==> arr [
        "event_name" ==> PStr "custom";
        "event_action" ==> PStr "story_page_attachment_exit";
        "event_category" ==> PStr "${title}";
        "send_to" ==> tracking_id ] ] ].

(** The [$config] literal; [None] when the tracking ID cannot be an array
    key. *)
Definition default_config (tracking_id : val) : option val :=
  match key_of_value tracking_id with
  | None => None
  | Some id_key =>
      Some (arr [
        "vars" ==> arr [
          "gtag_id" ==> tracking_id;
          "config" ==> arr [ (id_key, arr [ "groups" ==> PStr "default" ]) ] ];
        "triggers" ==> default_triggers tracking_id ])
  end.

Definition get_default_configuration (tracking_id : val) : option array :=
  match default_config tracking_id with
  | None => None
  | Some config => Some (to_array (apply_filters config))
  end.

(** [print_analytics_tag]: the elements printed. *)
Definition print_analytics_tag : option (list amp_analytics) :=
  if is_site_kit_analytics_module_active then Some []
  else
    let tracking_id := get_tracking_id in
    if negb (string_to_bool tracking_id) then Some []
    else
      match get_default_configuration (PStr tracking_id) with
      | None => None
      | Some config =>
          Some [ {| attr_type := "gtag";
                    attr_data_credentials := "include";
                    script := config |} ]
      end.

Definition filter_site_kit_gtag_opt (gtag_opt : array) : option array :=
  if negb (is_singular wp POST_TYPE_SLUG) then Some gtag_opt
  else
    match offset (PArr gtag_opt) "vars" with
    | None => None
    | Some vars =>
    match offset vars "gtag_id" with
    | None => None
    | Some gtag_id =>
    match get_default_configuration gtag_id with
    | None => None
    | Some default_config =>
        let default_config :=
          array_set default_config (KStr "triggers")
            (if isset default_config (KStr "triggers")
             then read default_config (KStr "triggers")
             else PArr []) in
        let gtag_opt :=
          array_set gtag_opt (KStr "triggers")
            (if isset gtag_opt (KStr "triggers")
             then read gtag_opt (KStr "triggers")
             else PArr []) in
        match array_merge (read default_config (KStr "triggers"))
                          (read gtag_opt (KStr "triggers")) with
        | None => None
        | Some merged => Some (array_set gtag_opt (KStr "triggers") merged)
        end
    end end end.

End Class.

(** The names of the entries of an array value, in order. *)
Definition keys (v : val) : list key := map fst (to_array v).

(** The trigger names in the configuration of the one printed element. *)
Definition emitted_trigger_names (out : option (list amp_analytics))
  : list key :=
  match out with
  | Some [e] => keys (read (script e) (KStr "triggers"))
  | _ => []
  end.

End Analytics.

(** ** Sample inputs *)

Module Samples.

Import Inspector.

(** A stand-in for colour patterns: the opacity in percent, previewed as its
    decimal numeral. *)
Definition percent : Type := Z.
Definition percent_text (p : percent) : string := decimal p.
Definition percent_shown (p : percent) : bool := true.

(** No element selected. *)
Definition story_none : StoryState :=
  {| selectedElementIds := {| address := 0; elements := [] |};
     currentPage := 0 |}.

(** Element [a] selected, same page. *)
Definition story_a : StoryState :=
  {| selectedElementIds := {| address := 1; elements := ["a"] |};
     currentPage := 0 |}.

(** Element [b] selected instead, same page. *)
Definition story_b : StoryState :=
  {| selectedElementIds := {| address := 2; elements := ["b"] |};
     currentPage := 0 |}.

(** A response of the statuses endpoint. *)
Definition statuses_response : JS.object StatusRecord.t :=
  [ ("draft",
     {| StatusRecord.slug := "draft"; StatusRecord.name := "Draft";
        StatusRecord.show_in_list := JS.boolean false |});
    ("publish",
     {| StatusRecord.slug := "publish"; StatusRecord.name := "Published";
        StatusRecord.show_in_list := JS.boolean true |}) ].

(** A response of the users endpoint. *)
Definition users_response : list UserRecord.t :=
  [ {| UserRecord.id := 1; UserRecord.name := "admin" |} ].

(** A site with tracking ID UA-123 and without Site Kit, showing a single
    story; nothing is hooked on the configuration filter. *)
Definition site_ua123 : Analytics.WordPress :=
  {| Analytics.GOOGLESITEKIT_VERSION := false;
     Analytics.get_option := fun name =>
       if String.eqb name "web_stories_ga_tracking_id"
       then PHP.PStr "UA-123" else PHP.PBool false;
     Analytics.is_singular := fun post_type => String.eqb post_type "web-story";
     Analytics.web_stories_analytics_configuration := [] |}.

(** The same site showing something else than a single story. *)
Definition site_elsewhere : Analytics.WordPress :=
  {| Analytics.GOOGLESITEKIT_VERSION := false;
     Analytics.get_option := Analytics.get_option site_ua123;
     Analytics.is_singular := fun _ => false;
     Analytics.web_stories_analytics_configuration := [] |}.

(** A gtag configuration as Site Kit passes it, with one trigger of its own
    under a name the plugin uses too. *)
Definition site_kit_triggers : PHP.array :=
  [ (PHP.KStr "storyEnd", PHP.PStr "external");
    (PHP.KStr "siteKitOnly", PHP.PStr "kept") ].

Definition site_kit_gtag_opt : PHP.array :=
  [ (PHP.KStr "vars",
     PHP.PArr [ (PHP.KStr "gtag_id", PHP.PStr "UA-123") ]);
    (PHP.KStr "triggers", PHP.PArr site_kit_triggers);
    (PHP.KStr "optoutElementId", PHP.PStr "__gaOptOutExtension") ].

End Samples.

(** ** Notions used to state further properties *)

Module Observations.

(** The [onChange] calls one event of the opacity field makes. *)
Definition commits {Pattern : Type} (e : OpacityPreview.event Pattern)
  : list JS.Number :=
  match e with
  | OpacityPreview.Change s =>
      if JS.isNaN (JS.parseInt s) then []
      else [JS.div (JS.parseInt s) (JS.of_Z 100)]
  | _ => []
  end.

Definition not_blur {Pattern : Type} (e : OpacityPreview.event Pattern) : bool :=
  match e with
  | OpacityPreview.Blur => false
  | _ => true
  end.

(** The buffer of the opacity field after events that come between a focus
    and the next blur, from the buffer it had at the focus: a change event
    stores its text, a change of the value prop stores the preview text of
    the new value. *)
Fixpoint focused_buffer {Pattern : Type} (getPreviewOpacity : Pattern -> string)
  (es : list (OpacityPreview.event Pattern)) (buffer : string) : string :=
  match es with
  | [] => buffer
  | OpacityPreview.Change s :: es' => focused_buffer getPreviewOpacity es' s
  | OpacityPreview.ValueChanged v :: es' =>
      focused_buffer getPreviewOpacity es' (getPreviewOpacity v)
  | _ :: es' => focused_buffer getPreviewOpacity es' buffer
  end.

(** [$trigger['vars']['send_to']] of a trigger of the configuration. *)
Definition trigger_send_to (trigger : PHP.val) : PHP.val :=
  PHP.read (PHP.to_array (PHP.read (PHP.to_array trigger) (PHP.KStr "vars")))
           (PHP.KStr "send_to").

(** The integer keys among the keys of an array, in order. *)
Fixpoint int_keys (ks : list PHP.key) : list Z :=
  match ks with
  | [] => []
  | PHP.KInt i :: r => i :: int_keys r
  | PHP.KStr _ :: r => int_keys r
  end.

(** The integers [n], [n + 1], ..., [len] of them. *)
Fixpoint count_from (n : Z) (len : nat) : list Z :=
  match len with
  | O => []
  | S len' => n :: count_from (n + 1) len'
  end.

Definition is_name (k : PHP.key) : bool :=
  match k with
  | PHP.KStr _ => true
  | PHP.KInt _ => false
  end.

End Observations.

(** ** Further sample inputs *)

Module MoreSamples.

(** A site on which Site Kit runs with its analytics module active; a
    tracking ID is configured all the same. *)
Definition site_with_site_kit : Analytics.WordPress :=
  {| Analytics.GOOGLESITEKIT_VERSION := true;
     Analytics.get_option := fun name =>
       if String.eqb name "googlesitekit_active_modules"
       then PHP.PArr [ (PHP.KInt 0, PHP.PStr "search-console");
                       (PHP.KInt 1, PHP.PStr "analytics") ]
       else if String.eqb name "web_stories_ga_tracking_id"
       then PHP.PStr "UA-123" else PHP.PBool false;
     Analytics.is_singular := fun post_type => String.eqb post_type "web-story";
     Analytics.web_stories_analytics_configuration := [] |}.

(** A site on which a callback on the configuration filter keeps only
    ['vars']. *)
Definition site_triggers_removed : Analytics.WordPress :=
  {| Analytics.GOOGLESITEKIT_VERSION := false;
     Analytics.get_option := Analytics.get_option Samples.site_ua123;
     Analytics.is_singular := fun post_type => String.eqb post_type "web-story";
     Analytics.web_stories_analytics_configuration :=
       [ fun config =>
           PHP.PArr [ (PHP.KStr "vars",
                       PHP.read (PHP.to_array config) (PHP.KStr "vars")) ] ] |}.

(** A gtag configuration without triggers of its own. *)
Definition gtag_opt_without_triggers : PHP.array :=
  [ (PHP.KStr "vars",
     PHP.PArr [ (PHP.KStr "gtag_id", PHP.PStr "UA-123") ]) ].

(** A gtag configuration without ['vars']. *)
Definition gtag_opt_without_vars : PHP.array :=
  [ (PHP.KStr "optoutElementId", PHP.PStr "__gaOptOutExtension") ].

(** A gtag configuration with a numbered trigger besides the named ones. *)
Definition gtag_opt_numbered : PHP.array :=
  [ (PHP.KStr "vars",
     PHP.PArr [ (PHP.KStr "gtag_id", PHP.PStr "UA-123") ]);
    (PHP.KStr "triggers",
     PHP.PArr [ (PHP.KInt 7, PHP.PStr "numbered");
                (PHP.KStr "storyEnd", PHP.PStr "external");
                (PHP.KStr "siteKitOnly", PHP.PStr "kept") ]) ].

(** A response of the statuses endpoint in which nothing is listed. *)
Definition statuses_unlisted : JS.object Inspector.StatusRecord.t :=
  [ ("trash",
     {| Inspector.StatusRecord.slug := "trash";
        Inspector.StatusRecord.name := "Trash";
        Inspector.StatusRecord.show_in_list := JS.boolean false |}) ].

(** The page changed, the selection did not. *)
Definition story_none_next_page : Inspector.StoryState :=
  {| Inspector.selectedElementIds :=
       Inspector.selectedElementIds Samples.story_none;
     Inspector.currentPage := 1 |}.

End MoreSamples.

(* ================================================================== *)
(** * Part II: properties *)
(* ================================================================== *)

(** ** Numbers: when a result is not NaN *)

Section NotNaN.

Variables prec emax : Z.

Lemma shr_1_nonneg (mrs : shr_record) :
  0 <= shr_m mrs -> 0 <= shr_m (shr_1 mrs).
Proof.
  destruct mrs as [m r s]; simpl.
  destruct m as [|p|p]; simpl; intros H; try lia.
  destruct p; simpl; lia.
Qed.

Lemma iter_shr_1_nonneg (p : positive) :
  forall mrs, 0 <= shr_m mrs -> 0 <= shr_m (iter_pos shr_1 p mrs).
Proof.
  induction p as [p IH|p IH|]; simpl; intros mrs H.
  - apply IH, IH, shr_1_nonneg, H.
  - apply IH, IH, H.
  - apply shr_1_nonneg, H.
Qed.

Lemma shr_nonneg (mrs : shr_record) (e n : Z) :
  0 <= shr_m mrs -> 0 <= shr_m (fst (shr mrs e n)).
Proof.
  intros H. destruct n as [|p|p]; simpl; auto using iter_shr_1_nonneg.
Qed.

Lemma shr_m_of_loc (m : Z) (l : location) :
  shr_m (shr_record_of_loc m l) = m.
Proof. destruct l as [|[]]; reflexivity. Qed.

Lemma shr_fexp_nonneg (m e : Z) (l : location) :
  0 <= m -> 0 <= shr_m (fst (shr_fexp prec emax m e l)).
Proof.
  intros H. unfold shr_fexp. apply shr_nonneg. now rewrite shr_m_of_loc.
Qed.

Lemma round_nearest_even_nonneg (m : Z) (l : location) :
  0 <= m -> 0 <= round_nearest_even m l.
Proof.
  intros H. destruct l as [|[]]; simpl; try lia.
  destruct (Z.even m); lia.
Qed.

Lemma binary_round_aux_not_nan (sx : bool) (mx ex : Z) (lx : location) :
  0 <= mx -> binary_round_aux prec emax sx mx ex lx <> S754_nan.
Proof.
  intros H. unfold binary_round_aux.
  pose proof (shr_fexp_nonneg mx ex lx H) as H1.
  destruct (shr_fexp prec emax mx ex lx) as [mrs' e']. simpl in H1.
  pose proof (shr_fexp_nonneg _ e' loc_Exact
                (round_nearest_even_nonneg _ (loc_of_shr_record mrs') H1)) as H2.
  destruct (shr_fexp prec emax _ e' loc_Exact) as [mrs'' e'']. simpl in H2.
  destruct (shr_m mrs'') as [|m|m]; try discriminate; try lia.
  destruct (e'' <=? emax - prec); discriminate.
Qed.

Lemma binary_normalize_not_nan (m e : Z) (szero : bool) :
  binary_normalize prec emax m e szero <> S754_nan.
Proof.
  destruct m as [|p|p]; simpl; try discriminate;
    unfold binary_round;
    destruct (shl_align _ _ _) as [mz ez];
    apply binary_round_aux_not_nan; lia.
Qed.

Lemma SFdiv_core_binary_nonneg (mx my : positive) (ex ey : Z) :
  0 <= fst (fst (SFdiv_core_binary prec emax (Zpos mx) ex (Zpos my) ey)).
Proof.
  unfold SFdiv_core_binary.
  set (s := _ - _ - Z.min _ _).
  set (m' := match s with Z0 => _ | Zpos _ => _ | Zneg _ => _ end).
  assert (Hm : 0 <= m').
  { subst m'. destruct s; try lia. apply Z.shiftl_nonneg. lia. }
  pose proof (Z_div_mod m' (Zpos my) eq_refl) as Hd.
  destruct (Z.div_eucl m' (Zpos my)) as [q r]. simpl.
  destruct Hd as [Hq Hr]. nia.
Qed.

Lemma SFdiv_finite_not_nan (x : spec_float) (sy : bool) (my : positive) (ey : Z) :
  x <> S754_nan -> SFdiv prec emax x (S754_finite sy my ey) <> S754_nan.
Proof.
  intros Hx. destruct x as [sx|sx| |sx mx ex]; simpl; try discriminate.
  - congruence.
  - pose proof (SFdiv_core_binary_nonneg mx my ex ey) as Hq.
    destruct (SFdiv_core_binary prec emax (Zpos mx) ex (Zpos my) ey) as [[mz ez] lz].
    simpl in Hq. now apply binary_round_aux_not_nan.
Qed.

End NotNaN.

Lemma isNaN_false (x : JS.Number) : x <> JS.NaN <-> JS.isNaN x = false.
Proof.
  unfold JS.NaN. destruct x; simpl; split; intros H; congruence.
Qed.

Lemma of_Z_not_NaN (n : Z) : JS.of_Z n <> JS.NaN.
Proof. apply binary_normalize_not_nan. Qed.

Lemma hundred_finite :
  JS.of_Z 100 = S754_finite false 7036874417766400 (-46).
Proof. vm_compute. reflexivity. Qed.

Lemma div_hundred_not_NaN (x : JS.Number) :
  x <> JS.NaN -> JS.div x (JS.of_Z 100) <> JS.NaN.
Proof.
  intros H. rewrite hundred_finite. now apply SFdiv_finite_not_nan.
Qed.

Lemma div_NaN (y : JS.Number) : JS.div JS.NaN y = JS.NaN.
Proof. reflexivity. Qed.

(** ** OpacityPreview *)

Section OpacityPreviewFacts.

Import OpacityPreview.

Variable Pattern : Type.
Variable hasPreviewText : Pattern -> bool.
Variable getPreviewOpacity : Pattern -> string.
Variable postfix : string.

Local Abbreviation step := (step Pattern getPreviewOpacity).
Local Abbreviation run := (run Pattern getPreviewOpacity).
Local Abbreviation mount := (mount Pattern getPreviewOpacity).
Local Abbreviation displayed := (displayed Pattern hasPreviewText postfix).
Local Abbreviation Mounted := (Mounted Pattern).
Local Abbreviation event := (event Pattern).

(** Whatever text is typed, [handleChange] stores it in the buffer and
    leaves the suffix flag alone. *)
Lemma handleChange_state (s : string) (st : State) :
  fst (handleChange s st) = setInputValue s st.
Proof.
  unfold handleChange. destruct (negb _); reflexivity.
Qed.

(** [onChange] fires exactly when the parsed number is not NaN, with the
    parsed number divided by 100. *)
Lemma handleChange_calls (s : string) (st : State) :
  snd (handleChange s st) =
    if JS.isNaN (JS.parseInt s) then []
    else [JS.div (JS.parseInt s) (JS.of_Z 100)].
Proof.
  unfold handleChange.
  destruct (JS.isNaN (JS.parseInt s)) eqn:E.
  - assert (JS.parseInt s = JS.NaN) as ->.
    { destruct (JS.parseInt s); simpl in E; try discriminate. reflexivity. }
    reflexivity.
  - apply isNaN_false in E. apply div_hundred_not_NaN, isNaN_false in E.
    rewrite E. reflexivity.
Qed.

(** C5.  If [parseInt] of the typed text is the integer [n], with [0 <= n],
    the change event stores the text and calls [onChange] once, within the
    handler, with [n / 100]. *)
Theorem change_commits_fraction (s : string) (n : Z) (w : Mounted) :
  0 <= n ->
  JS.parseInt s = JS.of_Z n ->
  step (Change s) w =
    ({| value := value w; state := setInputValue s (state w) |},
     [JS.div (JS.of_Z n) (JS.of_Z 100)]).
Proof.
  intros _ Hn. simpl.
  pose proof (handleChange_state s (state w)) as Hs.
  pose proof (handleChange_calls s (state w)) as Hc.
  destruct (handleChange s (state w)) as [st calls]. simpl in Hs, Hc.
  subst st. rewrite Hc, Hn.
  destruct (JS.isNaN (JS.of_Z n)) eqn:E; [|reflexivity].
  exfalso. pose proof (of_Z_not_NaN n) as H. apply isNaN_false in H. congruence.
Qed.

(** C6.  If [parseInt] of the typed text is NaN, the change event calls
    [onChange] not at all, and while the suffix is shown the field displays
    the typed text followed by the suffix. *)
Theorem change_not_a_number_is_kept_local (s : string) (w : Mounted) :
  JS.isNaN (JS.parseInt s) = true ->
  snd (step (Change s) w) = [] /\
  hasPostfix (state (fst (step (Change s) w))) = hasPostfix (state w) /\
  (hasPostfix (state w) = true ->
   displayed (fst (step (Change s) w)) = (s ++ postfix)%string).
Proof.
  intros Hn. simpl.
  pose proof (handleChange_state s (state w)) as Hs.
  pose proof (handleChange_calls s (state w)) as Hc.
  destruct (handleChange s (state w)) as [st calls]. simpl in Hs, Hc.
  subst st. rewrite Hn in Hc. simpl.
  split; [exact Hc|]. split; [reflexivity|].
  intros Hp. unfold displayed, OpacityPreview.displayed. simpl. now rewrite Hp.
Qed.

Lemma run_value (es : list event) :
  forall w, value (fst (run es w)) = last_value es (value w).
Proof.
  induction es as [|e es IH]; intros w; simpl; [reflexivity|].
  destruct (step e w) as [w1 c1] eqn:E1.
  specialize (IH w1). destruct (run es w1) as [w2 c2]. simpl in *.
  rewrite IH. destruct e; simpl in E1.
  - destruct (handleChange _ _); inversion E1; reflexivity.
  - inversion E1; reflexivity.
  - inversion E1; reflexivity.
  - inversion E1; reflexivity.
Qed.

(** C7.  After any run of events since mounting, a blur turns the suffix on
    and sets the buffer to [getPreviewOpacity] of the value prop then in
    force, whatever was typed in between; it calls [onChange] not at all. *)
Theorem blur_restores_committed_value (v : Pattern) (es : list event) :
  step Blur (fst (run es (mount v))) =
    ({| value := last_value es v;
        state := {| inputValue := getPreviewOpacity (last_value es v);
                    hasPostfix := true |} |},
     []).
Proof.
  pose proof (run_value es (mount v)) as H. simpl in H.
  destruct (run es (mount v)) as [w c]. simpl in *.
  unfold handleBlur, updateFromValue, enablePostfix, setHasPostfix, setInputValue.
  simpl. rewrite H. reflexivity.
Qed.

End OpacityPreviewFacts.

(** Typing 50 into a field mounted on 100 percent commits one half. *)
Lemma change_commits_fraction_witness :
  OpacityPreview.step Samples.percent Samples.percent_text
    (OpacityPreview.Change "50")
    (OpacityPreview.mount Samples.percent Samples.percent_text 100) =
  ({| OpacityPreview.value := 100;
      OpacityPreview.state :=
        {| OpacityPreview.inputValue := "50";
           OpacityPreview.hasPostfix := true |} |},
   [S754_finite false 4503599627370496 (-53)]).
Proof.
  apply (change_commits_fraction Samples.percent Samples.percent_text "50" 50).
  - lia.
  - vm_compute. reflexivity.
Defined.

(** Typing abc commits nothing and shows abc followed by the suffix. *)
Lemma change_not_a_number_is_kept_local_witness :
  let w := OpacityPreview.mount Samples.percent Samples.percent_text 100 in
  let r := OpacityPreview.step Samples.percent Samples.percent_text
             (OpacityPreview.Change "abc") w in
  snd r = [] /\
  OpacityPreview.hasPostfix (OpacityPreview.state (fst r)) = true /\
  (true = true ->
   OpacityPreview.displayed Samples.percent Samples.percent_shown "%" (fst r)
   = "abc%").
Proof.
  apply (change_not_a_number_is_kept_local Samples.percent
           Samples.percent_shown Samples.percent_text "%" "abc").
  vm_compute. reflexivity.
Defined.

(** ** InspectorProvider *)

Section InspectorFacts.

Import Inspector.

Lemma run_cons (e : event) (es : list event) (w : Provider) :
  run (e :: es) w = run es (step e w).
Proof. reflexivity. Qed.

Lemma run_app (es1 es2 : list event) (w : Provider) :
  run (es1 ++ es2) w = run es2 (run es1 w).
Proof. apply fold_left_app. Qed.

(** After a render the callbacks close over the cells as they were when the
    render started. *)
Lemma render_rendered (s : StoryState) (w : Provider) :
  rendered (render s w) = cells w.
Proof. reflexivity. Qed.

(** A render leaves the fetch counters alone. *)
Lemma render_counters (s : StoryState) (w : Provider) :
  getAllStatuses_calls (render s w) = getAllStatuses_calls w /\
  getAllUsers_calls (render s w) = getAllUsers_calls w /\
  statuses_pending (render s w) = statuses_pending w /\
  users_pending (render s w) = users_pending w.
Proof. repeat split. Qed.

(** A render writes no cell but [tab]. *)
Lemma render_cells (s : StoryState) (w : Provider) :
  cells (render s w) = cells w \/ cells (render s w) = setTab DESIGN (cells w).
Proof.
  unfold render, effect_currentPage, effect_selectedElementIds, effect_tab.
  simpl.
  repeat match goal with
         | |- context [if ?b then _ else _] => destruct b; simpl
         end; auto.
Qed.

Lemma step_not_statuses (e : event) (w : Provider) :
  not_statuses e = true -> same_statuses w (step e w).
Proof.
  destruct e as [s|t| | |o|o|h]; simpl; try discriminate; intros _.
  - destruct (render_cells s w) as [H|H]; split; try rewrite H; reflexivity.
  - split; reflexivity.
  - unfold loadUsers. destruct (_ && _); split; reflexivity.
  - unfold settleUsers. destruct (users_pending w); [split; reflexivity|].
    destruct o; split; reflexivity.
  - split; reflexivity.
Qed.

Lemma step_not_users (e : event) (w : Provider) :
  not_users e = true -> same_users w (step e w).
Proof.
  destruct e as [s|t| | |o|o|h]; simpl; try discriminate; intros _.
  - destruct (render_cells s w) as [H|H]; split; try rewrite H; reflexivity.
  - split; reflexivity.
  - unfold loadStatuses. destruct (_ && _); split; reflexivity.
  - unfold settleStatuses. destruct (statuses_pending w); [split; reflexivity|].
    destruct o; split; reflexivity.
  - split; reflexivity.
Qed.

Lemma run_not_statuses (es : list event) :
  forall w, forallb not_statuses es = true -> same_statuses w (run es w).
Proof.
  induction es as [|e es IH]; intros w H.
  - split; reflexivity.
  - simpl in H. apply andb_true_iff in H as [He Hes].
    rewrite run_cons.
    destruct (step_not_statuses e w He) as [A B C D].
    destruct (IH (step e w) Hes) as [A' B' C' D'].
    split; congruence.
Qed.

Lemma run_not_users (es : list event) :
  forall w, forallb not_users es = true -> same_users w (run es w).
Proof.
  induction es as [|e es IH]; intros w H.
  - split; reflexivity.
  - simpl in H. apply andb_true_iff in H as [He Hes].
    rewrite run_cons.
    destruct (step_not_users e w He) as [A B C D].
    destruct (IH (step e w) Hes) as [A' B' C' D'].
    split; congruence.
Qed.

(** A call that passes the guard raises the flag, invokes the fetch once
    and leaves one more promise pending. *)
Lemma loadStatuses_fires (w : Provider) :
  isStatusesLoading (rendered w) = false ->
  statuses (rendered w) = [] ->
  loadStatuses w =
    {| cells := setIsStatusesLoading true (cells w);
       rendered := rendered w; tabRef := tabRef w;
       deps_tab := deps_tab w;
       deps_selectedElementIds := deps_selectedElementIds w;
       deps_currentPage := deps_currentPage w;
       getAllStatuses_calls := S (getAllStatuses_calls w);
       getAllUsers_calls := getAllUsers_calls w;
       statuses_pending := S (statuses_pending w);
       users_pending := users_pending w |}.
Proof.
  intros H1 H2. unfold loadStatuses. rewrite H1, H2. reflexivity.
Qed.

Lemma loadUsers_fires (w : Provider) :
  isUsersLoading (rendered w) = false ->
  users (rendered w) = [] ->
  loadUsers w =
    {| cells := setIsUsersLoading true (cells w);
       rendered := rendered w; tabRef := tabRef w;
       deps_tab := deps_tab w;
       deps_selectedElementIds := deps_selectedElementIds w;
       deps_currentPage := deps_currentPage w;
       getAllStatuses_calls := getAllStatuses_calls w;
       getAllUsers_calls := S (getAllUsers_calls w);
       statuses_pending := statuses_pending w;
       users_pending := S (users_pending w) |}.
Proof.
  intros H1 H2. unfold loadUsers. rewrite H1, H2. reflexivity.
Qed.

(** A call made while the render saw the flag raised does nothing. *)
Lemma loadStatuses_guarded (w : Provider) :
  isStatusesLoading (rendered w) = true -> loadStatuses w = w.
Proof. intros H. unfold loadStatuses. rewrite H. reflexivity. Qed.

(** C2, as amended.  When the first call passes the guard, the provider
    renders before the second call, and in between nothing else calls
    [loadStatuses] or settles the fetch, [getAllStatuses] is invoked exactly
    once. *)
Theorem loadStatuses_once_across_render
  (w : Provider) (es : list event) (s : StoryState) :
  isStatusesLoading (rendered w) = false ->
  statuses (rendered w) = [] ->
  forallb not_statuses es = true ->
  getAllStatuses_calls (run (LoadStatuses :: es ++ [Render s; LoadStatuses]) w)
  = S (getAllStatuses_calls w).
Proof.
  intros H1 H2 Hes.
  rewrite run_cons, run_app. simpl step.
  rewrite (loadStatuses_fires w H1 H2).
  set (w1 := Build_Provider _ _ _ _ _ _ _ _ _ _).
  destruct (run_not_statuses es w1 Hes) as [A B C D].
  rewrite run_cons, run_cons. simpl run. simpl step.
  rewrite loadStatuses_guarded.
  - destruct (render_counters s (run es w1)) as [E _]. rewrite E, C.
    reflexivity.
  - rewrite render_rendered, A. reflexivity.
Qed.

Lemma effect_tab_sync (r : State) (w : Provider) :
  deps_tab w = None \/ deps_tab w = Some (tabRef w) ->
  tabRef (effect_tab r w) = tab r.
Proof.
  unfold effect_tab. simpl. intros [H|H]; rewrite H; simpl; [reflexivity|].
  destruct (String.eqb_spec (tabRef w) (tab r)); simpl; congruence.
Qed.

Lemma render_sync (s : StoryState) (w : Provider) :
  deps_tab w = None \/ deps_tab w = Some (tabRef w) ->
  tabRef_in_sync (render s w).
Proof.
  intros H. unfold tabRef_in_sync.
  assert (Ht : tabRef (render s w) = tab (cells w)).
  { unfold render. apply (effect_tab_sync (cells w)). exact H. }
  rewrite Ht. repeat split; discriminate.
Qed.

Lemma reachable_sync (w : Provider) : reachable w -> tabRef_in_sync w.
Proof.
  induction 1 as [s|e w Hw IH].
  - apply render_sync. left. reflexivity.
  - destruct e as [s|t| | |o|o|h]; simpl.
    + apply render_sync. right. apply IH.
    + exact IH.
    + unfold loadStatuses. destruct (_ && _); exact IH.
    + unfold loadUsers. destruct (_ && _); exact IH.
    + unfold settleStatuses. destruct (statuses_pending w); exact IH.
    + unfold settleUsers. destruct (users_pending w); exact IH.
    + exact IH.
Qed.

(** The tab a render leaves in the cell: it is reset to [DESIGN] exactly when
    it was [DOCUMENT] and either the selection changed to a non-empty list
    or the page changed. *)
Lemma render_tab (s : StoryState) (w : Provider) :
  reachable w ->
  tab (cells (render s w)) =
    if ((changed same_ref (deps_selectedElementIds w) (selectedElementIds s)
         && (0 <? List.length (elements (selectedElementIds s)))%nat)
        || changed Nat.eqb (deps_currentPage w) (currentPage s))
       && String.eqb (tab (cells w)) DOCUMENT
    then DESIGN else tab (cells w).
Proof.
  intros Hw. destruct (reachable_sync w Hw) as [Hs _].
  pose proof (effect_tab_sync (cells w) w (or_intror Hs)) as Ht.
  unfold render, effect_currentPage, effect_selectedElementIds.
  simpl. unfold effect_tab in Ht. simpl in Ht. rewrite Ht.
  destruct (changed same_ref _ _), (changed Nat.eqb _ _),
    (0 <? _)%nat, (String.eqb (tab (cells w)) DOCUMENT); reflexivity.
Qed.

(** C3, as amended.  When [selectedElementIds] changes to another array
    that is not empty, whatever the previous selection was, the tab is reset
    to [DESIGN] if it was [DOCUMENT] and is unchanged otherwise.  When it
    changes to an empty array and the page stays, the tab is unchanged. *)
Theorem selection_change_resets_document_tab
  (w : Provider) (s : StoryState) (prev : ArrayRef) :
  reachable w ->
  deps_selectedElementIds w = Some prev ->
  same_ref prev (selectedElementIds s) = false ->
  (elements (selectedElementIds s) <> [] ->
   tab (cells (render s w)) =
     if String.eqb (tab (cells w)) DOCUMENT then DESIGN else tab (cells w)) /\
  (elements (selectedElementIds s) = [] ->
   deps_currentPage w = Some (currentPage s) ->
   tab (cells (render s w)) = tab (cells w)).
Proof.
  intros Hw Hprev Hchg.
  rewrite (render_tab s w Hw), Hprev. simpl. rewrite Hchg. simpl.
  split.
  - intros Hne. destruct (elements (selectedElementIds s)); [congruence|].
    simpl. reflexivity.
  - intros He Hpage. rewrite He, Hpage. simpl. rewrite Nat.eqb_refl. reflexivity.
Qed.

(** C8.  After a call that passes the guard, once the fetch resolves with
    [data] and the provider renders, the list in the context is the records
    of [data] whose [show_in_list] is truthy, each mapped to its slug and
    name, and the loading flag is down. *)
Theorem resolved_statuses_are_filtered_and_mapped
  (w : Provider) (es : list event) (s : StoryState)
  (data : JS.object StatusRecord.t) :
  isStatusesLoading (rendered w) = false ->
  statuses (rendered w) = [] ->
  forallb not_statuses es = true ->
  let w' := run (LoadStatuses :: es
                   ++ [SettleStatuses (Resolved data); Render s]) w in
  statuses (rendered w') =
    map (fun d => {| SelectOption.value := StatusRecord.slug d;
                     SelectOption.name := StatusRecord.name d |})
        (filter (fun d => JS.truthy (StatusRecord.show_in_list d))
                (JS.Object_values data)) /\
  isStatusesLoading (rendered w') = false.
Proof.
  intros H1 H2 Hes w'. subst w'.
  rewrite run_cons, run_app. simpl step.
  rewrite (loadStatuses_fires w H1 H2).
  set (w1 := Build_Provider _ _ _ _ _ _ _ _ _ _).
  destruct (run_not_statuses es w1 Hes) as [A B C D].
  rewrite run_cons, run_cons. simpl run. simpl step.
  rewrite render_rendered. unfold settleStatuses.
  rewrite D. simpl. split; reflexivity.
Qed.

(** C9.  When the fetch of a call that passed the guard rejects, the loading
    flag is down again and the list is still empty; after the next render a
    call to the same action invokes the fetch capability once more.  This
    holds for [loadStatuses] and for [loadUsers]. *)
Theorem rejected_load_can_be_retried
  (w : Provider) (es : list event) (s : StoryState) :
  (isStatusesLoading (rendered w) = false ->
   statuses (rendered w) = [] ->
   statuses (cells w) = [] ->
   forallb not_statuses es = true ->
   let w' := run (LoadStatuses :: es ++ [SettleStatuses Rejected]) w in
   isStatusesLoading (cells w') = false /\
   statuses (cells w') = [] /\
   getAllStatuses_calls w' = S (getAllStatuses_calls w) /\
   getAllStatuses_calls (run [Render s; LoadStatuses] w')
   = S (S (getAllStatuses_calls w)))
  /\
  (isUsersLoading (rendered w) = false ->
   users (rendered w) = [] ->
   users (cells w) = [] ->
   forallb not_users es = true ->
   let w' := run (LoadUsers :: es ++ [SettleUsers Rejected]) w in
   isUsersLoading (cells w') = false /\
   users (cells w') = [] /\
   getAllUsers_calls w' = S (getAllUsers_calls w) /\
   getAllUsers_calls (run [Render s; LoadUsers] w')
   = S (S (getAllUsers_calls w))).
Proof.
  split.
  - intros H1 H2 H3 Hes w'. subst w'.
    rewrite run_cons, run_app. simpl step.
    rewrite (loadStatuses_fires w H1 H2).
    set (w1 := Build_Provider _ _ _ _ _ _ _ _ _ _).
    destruct (run_not_statuses es w1 Hes) as [A B C D].
    simpl in A, B, C, D.
    simpl run. unfold settleStatuses. rewrite D. simpl.
    repeat split; try congruence.
    unfold loadStatuses. simpl. rewrite B, H3. simpl. congruence.
  - intros H1 H2 H3 Hes w'. subst w'.
    rewrite run_cons, run_app. simpl step.
    rewrite (loadUsers_fires w H1 H2).
    set (w1 := Build_Provider _ _ _ _ _ _ _ _ _ _).
    destruct (run_not_users es w1 Hes) as [A B C D].
    simpl in A, B, C, D.
    simpl run. unfold settleUsers. rewrite D. simpl.
    repeat split; try congruence.
    unfold loadUsers. simpl. rewrite B, H3. simpl. congruence.
Qed.

End InspectorFacts.

Section InspectorExamples.

Import Inspector Samples.

(** C2, as first stated, fails: two calls made through the callback of one
    render both pass the guard, and [getAllStatuses] is invoked twice. *)
Lemma loadStatuses_twice_in_one_render :
  let w := mount story_none in
  isStatusesLoading (rendered w) = false /\
  statuses (rendered w) = [] /\
  getAllStatuses_calls w = 0%nat /\
  getAllStatuses_calls (run [LoadStatuses; LoadStatuses] w) = 2%nat /\
  statuses_pending (run [LoadStatuses; LoadStatuses] w) = 2%nat.
Proof. repeat split. Qed.

(** One fetch when a render separates the two calls. *)
Lemma loadStatuses_once_across_render_witness :
  getAllStatuses_calls
    (run (LoadStatuses :: [SetTab DOCUMENT]
            ++ [Render story_none; LoadStatuses]) (mount story_none))
  = 1%nat.
Proof.
  apply (loadStatuses_once_across_render (mount story_none)
           [SetTab DOCUMENT] story_none); reflexivity.
Defined.

(** C3, as first stated, fails: with [a] selected and the document tab
    chosen, selecting [b] instead resets the tab, although the selection was
    not empty before. *)
Lemma reset_without_empty_selection :
  let w := run [SetTab DOCUMENT; Render story_a] (mount story_a) in
  reachable w /\
  option_map elements (deps_selectedElementIds w) = Some ["a"] /\
  tab (rendered w) = DOCUMENT /\
  tab (cells w) = DOCUMENT /\
  elements (selectedElementIds story_b) = ["b"] /\
  tab (cells (render story_b w)) = DESIGN.
Proof.
  repeat split.
  apply (reachable_step (Render story_a)),
        (reachable_step (SetTab DOCUMENT)), reachable_mount.
Qed.

(** Selecting [a] on the document tab resets the tab; clearing the selection
    on the prepublish tab does not. *)
Lemma selection_change_resets_document_tab_witness :
  tab (cells (render story_a
                (run [SetTab DOCUMENT; Render story_none] (mount story_none))))
  = DESIGN /\
  tab (cells (render story_none
                (run [SetTab PREPUBLISH; Render story_a] (mount story_a))))
  = PREPUBLISH.
Proof.
  split.
  - apply (selection_change_resets_document_tab
             (run [SetTab DOCUMENT; Render story_none] (mount story_none))
             story_a (selectedElementIds story_none)).
    + apply (reachable_step (Render story_none)),
            (reachable_step (SetTab DOCUMENT)), reachable_mount.
    + reflexivity.
    + reflexivity.
    + discriminate.
  - apply (selection_change_resets_document_tab
             (run [SetTab PREPUBLISH; Render story_a] (mount story_a))
             story_none (selectedElementIds story_a)).
    + apply (reachable_step (Render story_a)),
            (reachable_step (SetTab PREPUBLISH)), reachable_mount.
    + reflexivity.
    + reflexivity.
    + reflexivity.
    + reflexivity.
Defined.

(** The draft and publish records: only publish is listed. *)
Lemma resolved_statuses_are_filtered_and_mapped_witness :
  let w' := run (LoadStatuses :: [Render story_none]
                   ++ [SettleStatuses (Resolved statuses_response);
                       Render story_none]) (mount story_none) in
  statuses (rendered w') =
    [ {| SelectOption.value := "publish"; SelectOption.name := "Published" |} ]
  /\ isStatusesLoading (rendered w') = false.
Proof.
  apply (resolved_statuses_are_filtered_and_mapped (mount story_none)
           [Render story_none] story_none statuses_response); reflexivity.
Defined.

(** A rejected fetch, then a second one, for both lists. *)
Lemma rejected_load_can_be_retried_witness :
  (let w' := run (LoadStatuses :: [Render story_none]
                    ++ [SettleStatuses Rejected]) (mount story_none) in
   isStatusesLoading (cells w') = false /\
   statuses (cells w') = [] /\
   getAllStatuses_calls w' = 1%nat /\
   getAllStatuses_calls (run [Render story_none; LoadStatuses] w') = 2%nat)
  /\
  (let w' := run (LoadUsers :: [Render story_none]
                    ++ [SettleUsers Rejected]) (mount story_none) in
   isUsersLoading (cells w') = false /\
   users (cells w') = [] /\
   getAllUsers_calls w' = 1%nat /\
   getAllUsers_calls (run [Render story_none; LoadUsers] w') = 2%nat).
Proof.
  destruct (rejected_load_can_be_retried (mount story_none)
              [Render story_none] story_none) as [Hs Hu].
  split.
  - apply Hs; reflexivity.
  - apply Hu; reflexivity.
Defined.

End InspectorExamples.

(** ** PHP arrays *)

Section ArrayFacts.

Import PHP.

Lemma key_eqb_spec (a b : key) : reflect (a = b) (key_eqb a b).
Proof.
  destruct a as [i|s], b as [j|t]; simpl; try (constructor; discriminate).
  - destruct (Z.eqb_spec i j); constructor; congruence.
  - destruct (String.eqb_spec s t); constructor; congruence.
Qed.

Lemma key_eqb_refl (k : key) : key_eqb k k = true.
Proof. destruct (key_eqb_spec k k); congruence. Qed.

Lemma array_get_set_same (a : array) (k : key) (v : val) :
  array_get (array_set a k v) k = Some v.
Proof.
  induction a as [|[k' v'] a IH]; simpl.
  - now rewrite key_eqb_refl.
  - destruct (key_eqb k' k) eqn:E; simpl; rewrite E; auto.
Qed.

Lemma array_get_set_other (a : array) (k k' : key) (v : val) :
  k' <> k -> array_get (array_set a k v) k' = array_get a k'.
Proof.
  intros Hk. induction a as [|[k0 v0] a IH]; simpl.
  - destruct (key_eqb_spec k k'); congruence.
  - destruct (key_eqb_spec k0 k) as [->|Hne]; simpl.
    + destruct (key_eqb_spec k k'); congruence.
    + now rewrite IH.
Qed.

Lemma array_set_set (a : array) (k : key) (v v' : val) :
  array_set (array_set a k v) k v' = array_set a k v'.
Proof.
  induction a as [|[k0 v0] a IH]; simpl.
  - now rewrite key_eqb_refl.
  - destruct (key_eqb k0 k) eqn:E; simpl; rewrite E; congruence.
Qed.

Lemma read_set_same (a : array) (k : key) (v : val) :
  read (array_set a k v) k = v.
Proof. unfold read. now rewrite array_get_set_same. Qed.

Lemma without_set (a : array) (k : key) (v : val) :
  without k (array_set a k v) = without k a.
Proof.
  unfold without. induction a as [|[k0 v0] a IH]; simpl.
  - now rewrite key_eqb_refl.
  - destruct (key_eqb k0 k) eqn:E; simpl; rewrite E; simpl; congruence.
Qed.

Lemma array_get_app_int (a : array) (i : Z) (v : val) (s : string) :
  array_get (a ++ [(KInt i, v)])%list (KStr s) = array_get a (KStr s).
Proof.
  induction a as [|[k0 v0] a IH]; simpl; [reflexivity|].
  destruct (key_eqb k0 (KStr s)); auto.
Qed.

(** A string key that the merged-in array does not bind keeps the entry it
    had. *)
Lemma merge_into_absent (l : array) (s : string) :
  ~ In (KStr s) (map fst l) ->
  forall acc next,
    array_get (fst (merge_into acc next l)) (KStr s) = array_get acc (KStr s).
Proof.
  induction l as [|[k v] l IH]; intros Hn acc next; simpl; [reflexivity|].
  simpl in Hn.
  assert (Hl : ~ In (KStr s) (map fst l)) by tauto.
  destruct k as [i|t].
  - rewrite (IH Hl). apply array_get_app_int.
  - rewrite (IH Hl). apply array_get_set_other. intros E. apply Hn. left.
    congruence.
Qed.

(** A string key that the merged-in array binds gets the entry of that
    array. *)
Lemma merge_into_present (l : array) (s : string) (v : val) :
  NoDup (map fst l) ->
  array_get l (KStr s) = Some v ->
  forall acc next,
    array_get (fst (merge_into acc next l)) (KStr s) = Some v.
Proof.
  induction l as [|[k v0] l IH]; intros Hd Hg acc next; simpl in *.
  - discriminate.
  - inversion Hd as [|? ? Hk Hd']; subst.
    destruct (key_eqb_spec k (KStr s)) as [->|Hne].
    + inversion Hg; subst. rewrite (merge_into_absent l s Hk).
      apply array_get_set_same.
    + destruct k as [i|t]; now apply IH.
Qed.

(** [array_merge]: on a string key of the second array, the second array
    wins. *)
Lemma array_merge_second_wins (x y : array) (s : string) (v : val) :
  NoDup (map fst y) ->
  array_get y (KStr s) = Some v ->
  exists merged,
    array_merge (PArr x) (PArr y) = Some (PArr merged) /\
    array_get merged (KStr s) = Some v.
Proof.
  intros Hd Hg. unfold array_merge.
  destruct (merge_into [] 0 x) as [r n].
  eexists. split; [reflexivity|]. now apply merge_into_present.
Qed.

(** [array_merge]: a string key of the first array that the second array
    does not bind keeps the entry of the first. *)
Lemma array_merge_first_kept (x y : array) (s : string) (v : val) :
  NoDup (map fst x) ->
  array_get x (KStr s) = Some v ->
  ~ In (KStr s) (map fst y) ->
  exists merged,
    array_merge (PArr x) (PArr y) = Some (PArr merged) /\
    array_get merged (KStr s) = Some v.
Proof.
  intros Hd Hg Hn. unfold array_merge.
  pose proof (merge_into_present x s v Hd Hg [] 0) as Hx.
  destruct (merge_into [] 0 x) as [r n]. simpl in Hx.
  eexists. split; [reflexivity|]. now rewrite merge_into_absent.
Qed.

Lemma array_merge_arrays (x y : val) :
  is_array x = true -> is_array y = true ->
  exists merged, array_merge x y = Some (PArr merged).
Proof.
  destruct x, y; simpl; try discriminate. intros _ _.
  destruct (merge_into [] 0 a) as [r n]. eexists. reflexivity.
Qed.

Lemma array_get_None (a : array) (k : key) :
  array_get a k = None -> ~ In k (map fst a).
Proof.
  induction a as [|[k0 v0] a IH]; simpl; [tauto|].
  destruct (key_eqb_spec k0 k); [discriminate|]. intros H [E|E]; auto.
  now apply IH.
Qed.

Lemma merge_from_empty_get (d : array) (s : string) :
  NoDup (map fst d) ->
  array_get (fst (merge_into [] 0 d)) (KStr s) = array_get d (KStr s).
Proof.
  intros Hd. destruct (array_get d (KStr s)) as [v|] eqn:E.
  - now apply merge_into_present.
  - now rewrite (merge_into_absent d s (array_get_None d _ E)).
Qed.

Lemma numbered_app (a b : array) :
  numbered (a ++ b)%list = (numbered a ++ numbered b)%list.
Proof.
  induction a as [|[[i|s] v] a IH]; simpl; congruence.
Qed.

Lemma numbered_set_name (a : array) (s : string) (v : val) :
  numbered (array_set a (KStr s) v) = numbered a.
Proof.
  induction a as [|[[i|t] v0] a IH]; simpl; [reflexivity| |].
  - now rewrite IH.
  - destruct (String.eqb t s); simpl; auto.
Qed.

(** [array_merge] keeps every numbered entry of the array it adds, after
    those the result already has. *)
Lemma merge_into_numbered (l : array) :
  forall acc next,
    numbered (fst (merge_into acc next l)) = (numbered acc ++ numbered l)%list.
Proof.
  induction l as [|[[i|s] v] l IH]; intros acc next; simpl.
  - now rewrite app_nil_r.
  - rewrite IH, numbered_app. simpl. now rewrite <- app_assoc.
  - now rewrite IH, numbered_set_name.
Qed.

End ArrayFacts.

(** ** Analytics *)

Section AnalyticsFacts.

Import PHP Analytics.

Variable SETTING_NAME_TRACKING_ID : string.
Variable POST_TYPE_SLUG : string.

Local Abbreviation print_analytics_tag :=
  (print_analytics_tag SETTING_NAME_TRACKING_ID).
Local Abbreviation get_tracking_id := (get_tracking_id SETTING_NAME_TRACKING_ID).
Local Abbreviation filter_site_kit_gtag_opt :=
  (filter_site_kit_gtag_opt POST_TYPE_SLUG).

(** The ten trigger names of the literal, whatever the tracking ID. *)
Lemma default_trigger_keys (tracking_id : val) :
  keys (default_triggers tracking_id) =
    [ KStr "storyProgress"; KStr "storyEnd"; KStr "trackFocusState";
      KStr "trackClickThrough"; KStr "storyOpen"; KStr "storyClose";
      KStr "audioMuted"; KStr "audioUnmuted"; KStr "pageAttachmentEnter";
      KStr "pageAttachmentExit" ].
Proof. reflexivity. Qed.

Lemma default_trigger_keys_are_names (tracking_id : val) (k : key) :
  In k (keys (default_triggers tracking_id)) -> exists s, k = KStr s.
Proof.
  rewrite default_trigger_keys. simpl.
  intros H. repeat (destruct H as [<-|H]; [eexists; reflexivity|]).
  contradiction.
Qed.

(** Without callbacks on the filter, the configuration is the literal. *)
Lemma get_default_configuration_unfiltered (wp : WordPress) (tracking_id : val) :
  web_stories_analytics_configuration wp = [] ->
  get_default_configuration wp tracking_id =
    option_map to_array (default_config tracking_id).
Proof.
  intros H. unfold get_default_configuration, apply_filters. rewrite H.
  destruct (default_config tracking_id); reflexivity.
Qed.

(** C1, as amended.  With tracking ID UA-123, Site Kit's analytics module
    not active and no callback on the configuration filter,
    [print_analytics_tag] prints one <amp-analytics> element of type gtag
    whose configuration has [vars.gtag_id] equal to UA-123 and exactly ten
    triggers, under the names listed. *)
Theorem print_analytics_tag_ua123 (wp : WordPress) :
  is_site_kit_analytics_module_active wp = false ->
  get_tracking_id wp = "UA-123" ->
  web_stories_analytics_configuration wp = [] ->
  exists config vars triggers,
    print_analytics_tag wp =
      Some [ {| attr_type := "gtag"; attr_data_credentials := "include";
                script := config |} ] /\
    array_get config (KStr "vars") = Some (PArr vars) /\
    array_get vars (KStr "gtag_id") = Some (PStr "UA-123") /\
    array_get config (KStr "triggers") = Some (PArr triggers) /\
    map fst triggers =
      [ KStr "storyProgress"; KStr "storyEnd"; KStr "trackFocusState";
        KStr "trackClickThrough"; KStr "storyOpen"; KStr "storyClose";
        KStr "audioMuted"; KStr "audioUnmuted"; KStr "pageAttachmentEnter";
        KStr "pageAttachmentExit" ] /\
    List.length triggers = 10%nat.
Proof.
  intros Hkit Hid Hcb.
  unfold Analytics.print_analytics_tag. rewrite Hkit, Hid.
  rewrite (get_default_configuration_unfiltered wp _ Hcb).
  cbn. do 3 eexists. repeat split; reflexivity.
Qed.

(** [filter_site_kit_gtag_opt] on a single story, once the tracking ID is
    read and the defaults are built. *)
Lemma filter_on_story (wp : WordPress) (gtag_opt : array) (gtag_id : val)
  (cfg : array) :
  is_singular wp POST_TYPE_SLUG = true ->
  offset (read gtag_opt (KStr "vars")) "gtag_id" = Some gtag_id ->
  get_default_configuration wp gtag_id = Some cfg ->
  filter_site_kit_gtag_opt wp gtag_opt =
    match array_merge
            (if isset cfg (KStr "triggers") then read cfg (KStr "triggers")
             else PArr [])
            (if isset gtag_opt (KStr "triggers")
             then read gtag_opt (KStr "triggers") else PArr []) with
    | None => None
    | Some merged => Some (array_set gtag_opt (KStr "triggers") merged)
    end.
Proof.
  intros Hs Hid Hcfg. unfold Analytics.filter_site_kit_gtag_opt.
  rewrite Hs. cbn [negb offset]. rewrite Hid, Hcfg.
  rewrite !read_set_same.
  destruct (array_merge _ _); [|reflexivity].
  now rewrite array_set_set.
Qed.

Lemma array_or_unset_operand (a : array) (k : key) :
  array_or_unset a k = true ->
  is_array (if isset a k then read a k else PArr []) = true.
Proof.
  unfold array_or_unset. destruct (isset a k); simpl; auto.
Qed.

(** On a single story the filter returns, provided the operands of the merge
    are arrays. *)
Lemma filter_on_story_returns (wp : WordPress) (gtag_opt : array)
  (gtag_id : val) (cfg : array) :
  is_singular wp POST_TYPE_SLUG = true ->
  offset (read gtag_opt (KStr "vars")) "gtag_id" = Some gtag_id ->
  get_default_configuration wp gtag_id = Some cfg ->
  array_or_unset cfg (KStr "triggers") = true ->
  array_or_unset gtag_opt (KStr "triggers") = true ->
  exists merged,
    filter_site_kit_gtag_opt wp gtag_opt =
      Some (array_set gtag_opt (KStr "triggers") (PArr merged)).
Proof.
  intros Hs Hid Hcfg Hc Hg.
  rewrite (filter_on_story wp gtag_opt gtag_id cfg Hs Hid Hcfg).
  destruct (array_merge_arrays _ _ (array_or_unset_operand _ _ Hc)
              (array_or_unset_operand _ _ Hg)) as [merged ->].
  now exists merged.
Qed.

(** C4.  On a single story the filter returns the configuration with its
    triggers replaced by the merge of the synthesized triggers (what
    [get_default_configuration] returns, callbacks included) and its own.
    Under every name, the merged triggers hold the configuration's own
    trigger if it has one of that name, and the synthesized trigger of that
    name otherwise; so where both have a name, the configuration's own value
    is kept.  Numbered triggers are never overwritten either: those of both
    sides are all kept, the synthesized ones first.  Without callbacks the
    synthesized triggers are those of the literal. *)
Theorem external_triggers_take_precedence
  (wp : WordPress) (gtag_opt : array) (gtag_id : val)
  (cfg defaults ext : array) :
  is_singular wp POST_TYPE_SLUG = true ->
  offset (read gtag_opt (KStr "vars")) "gtag_id" = Some gtag_id ->
  get_default_configuration wp gtag_id = Some cfg ->
  (if isset cfg (KStr "triggers") then read cfg (KStr "triggers")
   else PArr []) = PArr defaults ->
  (if isset gtag_opt (KStr "triggers") then read gtag_opt (KStr "triggers")
   else PArr []) = PArr ext ->
  NoDup (map fst defaults) ->
  NoDup (map fst ext) ->
  exists merged,
    filter_site_kit_gtag_opt wp gtag_opt =
      Some (array_set gtag_opt (KStr "triggers") (PArr merged)) /\
    (forall s,
       array_get merged (KStr s) =
         match array_get ext (KStr s) with
         | Some v => Some v
         | None => array_get defaults (KStr s)
         end) /\
    numbered merged = (numbered defaults ++ numbered ext)%list /\
    (web_stories_analytics_configuration wp = [] ->
     defaults = to_array (default_triggers gtag_id)).
Proof.
  intros Hs Hid Hcfg Hdef Hext Hdd Hde.
  rewrite (filter_on_story wp gtag_opt gtag_id cfg Hs Hid Hcfg).
  rewrite Hdef, Hext. unfold array_merge.
  pose proof (fun s => merge_from_empty_get defaults s Hdd) as Hfirst.
  pose proof (merge_into_numbered defaults [] 0) as Hnum.
  destruct (merge_into [] 0 defaults) as [r n]. simpl in Hfirst, Hnum.
  eexists. split; [reflexivity|]. split; [|split].
  - intros s. destruct (array_get ext (KStr s)) as [v|] eqn:E.
    + now apply merge_into_present.
    + rewrite (merge_into_absent ext s (array_get_None ext _ E)). apply Hfirst.
  - now rewrite merge_into_numbered, Hnum.
  - intros Hcb.
    rewrite (get_default_configuration_unfiltered wp gtag_id Hcb) in Hcfg.
    unfold default_config in Hcfg.
    destruct (key_of_value gtag_id); [|discriminate].
    inversion Hcfg; subst cfg.
    change (PArr (to_array (default_triggers gtag_id)) = PArr defaults) in Hdef.
    now inversion Hdef.
Qed.

(** The other half of the merge: without callbacks on the configuration
    filter, a synthesized trigger whose name the passed-in triggers do not
    use is in the returned configuration. *)
Lemma default_triggers_are_merged_in
  (wp : WordPress) (gtag_opt : array) (gtag_id : val) (ext : array)
  (s : string) (v : val) :
  is_singular wp POST_TYPE_SLUG = true ->
  web_stories_analytics_configuration wp = [] ->
  offset (read gtag_opt (KStr "vars")) "gtag_id" = Some gtag_id ->
  key_of_value gtag_id <> None ->
  array_get gtag_opt (KStr "triggers") = Some (PArr ext) ->
  ~ In (KStr s) (map fst ext) ->
  array_get (to_array (default_triggers gtag_id)) (KStr s) = Some v ->
  exists r merged,
    filter_site_kit_gtag_opt wp gtag_opt = Some r /\
    array_get r (KStr "triggers") = Some (PArr merged) /\
    array_get merged (KStr s) = Some v.
Proof.
  intros Hs Hcb Hid Hkey Hext Hn Hv.
  assert (Hcfg : exists cfg,
             get_default_configuration wp gtag_id = Some cfg /\
             isset cfg (KStr "triggers") = true /\
             read cfg (KStr "triggers") = default_triggers gtag_id).
  { rewrite (get_default_configuration_unfiltered wp gtag_id Hcb).
    unfold default_config. destruct (key_of_value gtag_id); [|congruence].
    eexists. split; [reflexivity|]. split; reflexivity. }
  destruct Hcfg as [cfg [Hcfg [Hi Hr]]].
  rewrite (filter_on_story wp gtag_opt gtag_id cfg Hs Hid Hcfg).
  rewrite Hi, Hr.
  assert (Hi' : isset gtag_opt (KStr "triggers") = true)
    by (unfold isset; now rewrite Hext).
  assert (Hr' : read gtag_opt (KStr "triggers") = PArr ext)
    by (unfold read; now rewrite Hext).
  rewrite Hi', Hr'.
  assert (Hd : NoDup (keys (default_triggers gtag_id))).
  { rewrite default_trigger_keys.
    repeat (constructor; [simpl; intuition discriminate|]). constructor. }
  destruct (array_merge_first_kept (to_array (default_triggers gtag_id)) ext
              s v Hd Hv Hn) as [merged [Hm Hg]].
  change (PArr (to_array (default_triggers gtag_id)))
    with (default_triggers gtag_id) in Hm.
  rewrite Hm.
  exists (array_set gtag_opt (KStr "triggers") (PArr merged)), merged.
  repeat split; auto using array_get_set_same.
Qed.

(** C10.  Off single stories the filter returns its input.  Whatever it
    returns has the entries of the input under every key but ['triggers'],
    in the same order.  And on a single story it does return, provided the
    operands of the merge are arrays. *)
Theorem filter_changes_triggers_only (wp : WordPress) (gtag_opt : array) :
  (is_singular wp POST_TYPE_SLUG = false ->
   filter_site_kit_gtag_opt wp gtag_opt = Some gtag_opt) /\
  (forall r,
     filter_site_kit_gtag_opt wp gtag_opt = Some r ->
     without (KStr "triggers") r = without (KStr "triggers") gtag_opt /\
     forall k, k <> KStr "triggers" -> array_get r k = array_get gtag_opt k) /\
  (forall gtag_id cfg,
     is_singular wp POST_TYPE_SLUG = true ->
     offset (read gtag_opt (KStr "vars")) "gtag_id" = Some gtag_id ->
     get_default_configuration wp gtag_id = Some cfg ->
     array_or_unset cfg (KStr "triggers") = true ->
     array_or_unset gtag_opt (KStr "triggers") = true ->
     exists r, filter_site_kit_gtag_opt wp gtag_opt = Some r).
Proof.
  split; [|split].
  - intros Hs. unfold Analytics.filter_site_kit_gtag_opt. now rewrite Hs.
  - intros r. unfold Analytics.filter_site_kit_gtag_opt.
    destruct (is_singular wp POST_TYPE_SLUG); cbn [negb].
    + destruct (offset (PArr gtag_opt) "vars") as [vars|]; [|discriminate].
      destruct (offset vars "gtag_id") as [gtag_id|]; [|discriminate].
      destruct (get_default_configuration wp gtag_id) as [cfg|];
        [|discriminate].
      destruct (array_merge _ _) as [merged|]; [|discriminate].
      intros E. inversion E; subst r. split.
      * now rewrite !without_set.
      * intros k Hk. now rewrite !array_get_set_other.
    + intros E. inversion E; subst r. auto.
  - intros gtag_id cfg Hs Hid Hcfg Hc Hg.
    destruct (filter_on_story_returns wp gtag_opt gtag_id cfg Hs Hid Hcfg Hc Hg)
      as [merged H].
    eexists. exact H.
Qed.

End AnalyticsFacts.

Section AnalyticsExamples.

Import PHP Analytics Samples.

(** C1, as first stated, fails: for the site with tracking ID UA-123 and
    without Site Kit, the printed configuration has ten triggers, not
    nine. *)
Lemma print_analytics_tag_has_ten_triggers :
  let out := print_analytics_tag "web_stories_ga_tracking_id" site_ua123 in
  is_site_kit_analytics_module_active site_ua123 = false /\
  get_tracking_id "web_stories_ga_tracking_id" site_ua123 = "UA-123" /\
  List.length (emitted_trigger_names out) = 10%nat /\
  List.length (emitted_trigger_names out) <> 9%nat.
Proof. repeat split. discriminate. Qed.

(** The site of the samples prints the ten triggers for UA-123. *)
Lemma print_analytics_tag_ua123_witness :
  exists config vars triggers,
    print_analytics_tag "web_stories_ga_tracking_id" site_ua123 =
      Some [ {| attr_type := "gtag"; attr_data_credentials := "include";
                script := config |} ] /\
    array_get config (KStr "vars") = Some (PArr vars) /\
    array_get vars (KStr "gtag_id") = Some (PStr "UA-123") /\
    array_get config (KStr "triggers") = Some (PArr triggers) /\
    map fst triggers =
      [ KStr "storyProgress"; KStr "storyEnd"; KStr "trackFocusState";
        KStr "trackClickThrough"; KStr "storyOpen"; KStr "storyClose";
        KStr "audioMuted"; KStr "audioUnmuted"; KStr "pageAttachmentEnter";
        KStr "pageAttachmentExit" ] /\
    List.length triggers = 10%nat.
Proof.
  apply (print_analytics_tag_ua123 "web_stories_ga_tracking_id" site_ua123);
    reflexivity.
Defined.

(** Site Kit's sample configuration on the sample site: its own storyEnd
    and siteKitOnly triggers are in the result, storyOpen comes from the
    literal, and nothing is numbered. *)
Lemma external_triggers_take_precedence_witness :
  exists merged,
    filter_site_kit_gtag_opt "web-story" site_ua123 site_kit_gtag_opt =
      Some (array_set site_kit_gtag_opt (KStr "triggers") (PArr merged)) /\
    array_get merged (KStr "storyEnd") = Some (PStr "external") /\
    array_get merged (KStr "siteKitOnly") = Some (PStr "kept") /\
    array_get merged (KStr "storyOpen") =
      array_get (to_array (default_triggers (PStr "UA-123"))) (KStr "storyOpen")
    /\
    numbered merged = [].
Proof.
  destruct (external_triggers_take_precedence "web-story" site_ua123
              site_kit_gtag_opt (PStr "UA-123")
              (to_array (arr [ "vars" ==> arr [
                                 "gtag_id" ==> PStr "UA-123";
                                 "config" ==> arr [
                                   "UA-123" ==> arr [
                                     "groups" ==> PStr "default" ] ] ];
                               "triggers" ==> default_triggers (PStr "UA-123") ]))
              (to_array (default_triggers (PStr "UA-123")))
              site_kit_triggers)
    as [merged [Hf [Hname [Hnum Hlit]]]].
  - reflexivity.
  - reflexivity.
  - reflexivity.
  - reflexivity.
  - reflexivity.
  - repeat (constructor; [simpl; intuition discriminate|]). constructor.
  - repeat constructor; simpl; intuition discriminate.
  - exists merged. split; [exact Hf|].
    split; [exact (Hname "storyEnd")|].
    split; [exact (Hname "siteKitOnly")|].
    split; [exact (Hname "storyOpen")|exact Hnum].
Defined.

(** The sample configuration, off and on a single story. *)
Lemma filter_changes_triggers_only_witness :
  filter_site_kit_gtag_opt "web-story" site_elsewhere site_kit_gtag_opt
  = Some site_kit_gtag_opt /\
  exists r,
    filter_site_kit_gtag_opt "web-story" site_ua123 site_kit_gtag_opt = Some r /\
    without (KStr "triggers") r = without (KStr "triggers") site_kit_gtag_opt /\
    array_get r (KStr "vars") = array_get site_kit_gtag_opt (KStr "vars").
Proof.
  split.
  - apply (filter_changes_triggers_only "web-story" site_elsewhere
             site_kit_gtag_opt). reflexivity.
  - destruct (filter_changes_triggers_only "web-story" site_ua123
                site_kit_gtag_opt) as [_ [Hframe Hret]].
    destruct (Hret (PStr "UA-123") _ eq_refl eq_refl eq_refl eq_refl eq_refl)
      as [r Hr].
    exists r. destruct (Hframe r Hr) as [Hw Hk].
    repeat split; auto. apply Hk. discriminate.
Defined.

End AnalyticsExamples.

(* ================================================================== *)
(** * Part III: further properties *)
(* ================================================================== *)

(** ** OpacityPreview: runs of events *)

Section OpacityPreviewRuns.

Import OpacityPreview Observations.

Variable Pattern : Type.
Variable hasPreviewText : Pattern -> bool.
Variable getPreviewOpacity : Pattern -> string.
Variable postfix : string.

Local Abbreviation step := (step Pattern getPreviewOpacity).
Local Abbreviation run := (run Pattern getPreviewOpacity).
Local Abbreviation displayed := (displayed Pattern hasPreviewText postfix).
Local Abbreviation Mounted := (Mounted Pattern).
Local Abbreviation event := (event Pattern).

Lemma step_commits (e : event) (w : Mounted) : snd (step e w) = commits e.
Proof.
  destruct e as [s| | |v]; simpl; try reflexivity.
  pose proof (handleChange_calls s (state w)) as Hc.
  destruct (handleChange s (state w)) as [st calls]. exact Hc.
Qed.

Lemma step_change_state (s : string) (w : Mounted) :
  state (fst (step (Change s) w)) = setInputValue s (state w).
Proof.
  simpl. pose proof (handleChange_state s (state w)) as Hs.
  destruct (handleChange s (state w)) as [st calls]. exact Hs.
Qed.

Lemma opacity_run_app (es1 es2 : list event) :
  forall w, fst (run (es1 ++ es2) w) = fst (run es2 (fst (run es1 w))).
Proof.
  induction es1 as [|e es1 IH]; intros w; simpl; [reflexivity|].
  destruct (step e w) as [w1 c1].
  specialize (IH w1).
  destruct (run (es1 ++ es2) w1) as [w2 c2].
  destruct (run es1 w1) as [w3 c3]. simpl in *. exact IH.
Qed.

(** Over any run of events, [onChange] is called once for every change event
    whose text parses to a number, in order, with that number divided by
    100; there is no range check, and focus, blur and changes of the value
    prop call it not at all. *)
Theorem onChange_calls_of_run (es : list event) (w : Mounted) :
  snd (run es w) = flat_map commits es.
Proof.
  revert w. induction es as [|e es IH]; intros w; simpl; [reflexivity|].
  pose proof (step_commits e w) as He.
  destruct (step e w) as [w1 c1]. simpl in He.
  specialize (IH w1). destruct (run es w1) as [w2 c2]. simpl in *.
  now rewrite He, IH.
Qed.

Lemma step_keeps_suffix_off (e : event) (w : Mounted) :
  not_blur e = true ->
  hasPostfix (state w) = false ->
  hasPostfix (state (fst (step e w))) = false.
Proof.
  destruct e as [s| | |v]; try discriminate; intros _ H.
  - rewrite step_change_state. exact H.
  - reflexivity.
  - exact H.
Qed.

Lemma run_keeps_suffix_off (es : list event) :
  forall w, forallb not_blur es = true ->
            hasPostfix (state w) = false ->
            hasPostfix (state (fst (run es w))) = false.
Proof.
  induction es as [|e es IH]; intros w Hes H; simpl; [exact H|].
  simpl in Hes. apply andb_true_iff in Hes as [He Hes].
  pose proof (step_keeps_suffix_off e w He H) as H1.
  destruct (step e w) as [w1 c1]. simpl in H1.
  specialize (IH w1 Hes H1). destruct (run es w1) as [w2 c2]. exact IH.
Qed.

Lemma run_focused_state (es : list event) :
  forall w,
    forallb not_blur es = true ->
    hasPostfix (state w) = false ->
    state (fst (run es w)) =
      {| inputValue :=
           focused_buffer getPreviewOpacity es (inputValue (state w));
         hasPostfix := false |}.
Proof.
  induction es as [|e es IH]; intros w Hes H.
  - simpl. destruct (state w) as [buf suffix]. simpl in *. now subst.
  - simpl in Hes. apply andb_true_iff in Hes as [He Hes].
    pose proof (step_keeps_suffix_off e w He H) as H1.
    assert (Hb : focused_buffer getPreviewOpacity (e :: es)
                   (inputValue (state w))
                 = focused_buffer getPreviewOpacity es
                     (inputValue (state (fst (step e w))))).
    { destruct e as [s| | |v]; try discriminate; try reflexivity.
      now rewrite step_change_state. }
    rewrite Hb. simpl run.
    destruct (step e w) as [w1 c1]. simpl in H1 |- *.
    specialize (IH w1 Hes H1). destruct (run es w1) as [w2 c2]. exact IH.
Qed.

(** Between a focus and the next blur the field shows its buffer without the
    suffix, and the buffer is the text of the latest change event, unless
    the value prop changed after it: then it is the preview text of the
    latest value, which replaces what was typed.  With neither since the
    focus, it is the buffer the field had at the focus. *)
Theorem focused_field_shows_buffer (w : Mounted) (es : list event) :
  forallb not_blur es = true ->
  hasPostfix (state (fst (run (Focus :: es) w))) = false /\
  displayed (fst (run (Focus :: es) w)) =
    focused_buffer getPreviewOpacity es (inputValue (state w)).
Proof.
  intros Hes.
  change (Focus :: es)%list with ([Focus] ++ es)%list.
  rewrite opacity_run_app.
  pose proof (run_focused_state es (fst (run [Focus] w)) Hes eq_refl) as Hst.
  change (inputValue (state (fst (run [Focus] w))))
    with (inputValue (state w)) in Hst.
  generalize dependent (fst (run es (fst (run [Focus] w)))). intros w2 Hst.
  unfold displayed, OpacityPreview.displayed, render. simpl Input_value.
  rewrite Hst. split; reflexivity.
Qed.

End OpacityPreviewRuns.

(** A field focused while it shows 100 percent: typing 4 and then 4x shows
    4x; when the value prop then becomes 4, the buffer is replaced and the
    field shows 4. *)
Lemma focused_field_shows_buffer_witness :
  let w := OpacityPreview.mount Samples.percent Samples.percent_text 100 in
  OpacityPreview.displayed Samples.percent Samples.percent_shown "%"
    (fst (OpacityPreview.run Samples.percent Samples.percent_text
            [OpacityPreview.Focus; OpacityPreview.Change "4";
             OpacityPreview.Change "4x"] w)) = "4x" /\
  OpacityPreview.displayed Samples.percent Samples.percent_shown "%"
    (fst (OpacityPreview.run Samples.percent Samples.percent_text
            [OpacityPreview.Focus; OpacityPreview.Change "4x";
             OpacityPreview.ValueChanged 4] w)) = "4".
Proof.
  intros w. split.
  - apply (focused_field_shows_buffer Samples.percent Samples.percent_shown
             Samples.percent_text "%" w
             [OpacityPreview.Change "4"; OpacityPreview.Change "4x"]).
    reflexivity.
  - apply (focused_field_shows_buffer Samples.percent Samples.percent_shown
             Samples.percent_text "%" w
             [OpacityPreview.Change "4x"; OpacityPreview.ValueChanged 4]).
    reflexivity.
Defined.

(** ** InspectorProvider: tabs *)

Section InspectorTabs.

Import Inspector.

Lemma render_tabRef (s : StoryState) (w : Provider) :
  deps_tab w = None \/ deps_tab w = Some (tabRef w) ->
  tabRef (render s w) = tab (cells w).
Proof.
  intros H. unfold render. apply (effect_tab_sync (cells w)). exact H.
Qed.

(** Throughout the lifetime of the provider, [tabRef.current] is the tab the
    latest render read, whatever [setTab] has queued since. *)
Theorem tabRef_follows_rendered_tab (w : Provider) :
  reachable w -> tabRef w = tab (rendered w).
Proof.
  induction 1 as [s|e w Hw IH].
  - reflexivity.
  - destruct e as [s|t| | |o|o|h]; cbn [step].
    + rewrite render_rendered. apply render_tabRef. right.
      apply (reachable_sync w Hw).
    + exact IH.
    + unfold loadStatuses. destruct (_ && _); exact IH.
    + unfold loadUsers. destruct (_ && _); exact IH.
    + unfold settleStatuses. destruct (statuses_pending w); exact IH.
    + unfold settleUsers. destruct (users_pending w); exact IH.
    + exact IH.
Qed.

(** When [currentPage] changes to another page, the tab is reset to [DESIGN]
    if it was [DOCUMENT] and is unchanged otherwise, whether or not the
    selection changed and whether or not it is empty. *)
Theorem page_change_resets_document_tab
  (w : Provider) (s : StoryState) (page : nat) :
  reachable w ->
  deps_currentPage w = Some page ->
  Nat.eqb page (currentPage s) = false ->
  tab (cells (render s w)) =
    if String.eqb (tab (cells w)) DOCUMENT then DESIGN else tab (cells w).
Proof.
  intros Hw Hp Hne. rewrite (render_tab s w Hw), Hp. simpl. rewrite Hne.
  simpl. rewrite orb_true_r. reflexivity.
Qed.

(** No render changes a tab other than [DOCUMENT], and a render in which
    neither the selection nor the page changed leaves even [DOCUMENT]
    alone. *)
Theorem render_resets_only_document (w : Provider) (s : StoryState) :
  reachable w ->
  (tab (cells w) <> DOCUMENT -> tab (cells (render s w)) = tab (cells w)) /\
  (forall prev,
     deps_selectedElementIds w = Some prev ->
     same_ref prev (selectedElementIds s) = true ->
     deps_currentPage w = Some (currentPage s) ->
     tab (cells (render s w)) = tab (cells w)).
Proof.
  intros Hw. rewrite (render_tab s w Hw). split.
  - intros Hne. destruct (String.eqb_spec (tab (cells w)) DOCUMENT);
      [contradiction|]. now rewrite andb_false_r.
  - intros prev Hprev Hsame Hpage. rewrite Hprev, Hpage. simpl.
    rewrite Hsame, Nat.eqb_refl. reflexivity.
Qed.

Lemma render_idle (s : StoryState) (w : Provider) :
  deps_tab w = Some (tab (cells w)) ->
  deps_selectedElementIds w = Some (selectedElementIds s) ->
  deps_currentPage w = Some (currentPage s) ->
  rendered w = cells w ->
  render s w = w.
Proof.
  destruct w as [c r t dt ds dp n1 n2 n3 n4]. simpl.
  intros -> -> -> ->.
  unfold render, effect_currentPage, effect_selectedElementIds, effect_tab,
    same_ref. simpl.
  rewrite String.eqb_refl, !Nat.eqb_refl. reflexivity.
Qed.

Lemma render_deps (s : StoryState) (w : Provider) :
  deps_tab (render s w) = Some (tab (cells w)) /\
  deps_selectedElementIds (render s w) = Some (selectedElementIds s) /\
  deps_currentPage (render s w) = Some (currentPage s).
Proof. repeat split. Qed.

Lemma render_cells_idle (s : StoryState) (w : Provider) :
  deps_selectedElementIds w = Some (selectedElementIds s) ->
  deps_currentPage w = Some (currentPage s) ->
  cells (render s w) = cells w.
Proof.
  intros H1 H2.
  unfold render, effect_currentPage, effect_selectedElementIds, effect_tab,
    same_ref. simpl. rewrite H1, H2. simpl. rewrite !Nat.eqb_refl. reflexivity.
Qed.

(** Rendering again with the same story state settles: after two renders a
    further render changes nothing, so the tab effects cannot loop. *)
Theorem render_settles (s : StoryState) (w : Provider) :
  render s (render s (render s w)) = render s (render s w).
Proof.
  destruct (render_deps s w) as [_ [Hs1 Hp1]].
  generalize dependent (render s w). intros w1 Hs1 Hp1.
  pose proof (render_cells_idle s w1 Hs1 Hp1) as Hc.
  destruct (render_deps s w1) as [Ht2 [Hs2 Hp2]].
  pose proof (render_rendered s w1) as Hr2.
  generalize dependent (render s w1). intros w2 Hc Ht2 Hs2 Hp2 Hr2.
  apply render_idle; congruence.
Qed.

End InspectorTabs.

Section InspectorTabExamples.

Import Inspector Samples MoreSamples.

(** After the document tab is chosen and before the next render, the ref
    still holds the tab of the latest render. *)
Lemma tabRef_follows_rendered_tab_witness :
  tabRef (run [SetTab DOCUMENT] (mount story_none)) = DESIGN /\
  tab (cells (run [SetTab DOCUMENT] (mount story_none))) = DOCUMENT.
Proof.
  split; [|reflexivity].
  apply (tabRef_follows_rendered_tab (run [SetTab DOCUMENT] (mount story_none))).
  apply (reachable_step (SetTab DOCUMENT)), reachable_mount.
Defined.

(** Turning the page on the document tab, with nothing selected. *)
Lemma page_change_resets_document_tab_witness :
  tab (cells (render story_none_next_page
                (run [SetTab DOCUMENT; Render story_none] (mount story_none))))
  = DESIGN.
Proof.
  apply (page_change_resets_document_tab
           (run [SetTab DOCUMENT; Render story_none] (mount story_none))
           story_none_next_page 0%nat).
  - apply (reachable_step (Render story_none)),
          (reachable_step (SetTab DOCUMENT)), reachable_mount.
  - reflexivity.
  - reflexivity.
Defined.

(** The prepublish tab survives a new selection on a new page; the document
    tab survives a render in which nothing changed. *)
Lemma render_resets_only_document_witness :
  tab (cells (render story_a
                (run [SetTab PREPUBLISH] (mount story_none_next_page))))
  = PREPUBLISH /\
  tab (cells (render story_a
                (run [SetTab DOCUMENT; Render story_a] (mount story_a))))
  = DOCUMENT.
Proof.
  split.
  - apply (render_resets_only_document
             (run [SetTab PREPUBLISH] (mount story_none_next_page)) story_a).
    + apply (reachable_step (SetTab PREPUBLISH)), reachable_mount.
    + discriminate.
  - destruct (render_resets_only_document
                (run [SetTab DOCUMENT; Render story_a] (mount story_a)) story_a)
      as [_ H].
    + apply (reachable_step (Render story_a)),
            (reachable_step (SetTab DOCUMENT)), reachable_mount.
    + apply (H (selectedElementIds story_a)); reflexivity.
Defined.

End InspectorTabExamples.

(** ** InspectorProvider: loading the lists *)

Section InspectorLoading.

Import Inspector.

(** The users counterpart of the statuses list: after a call that passes the
    guard, once the fetch resolves with [data] and the provider renders, the
    list in the context has one entry per record, in order, each record
    mapped to its id and name; nothing is filtered out, and the loading flag
    is down. *)
Theorem resolved_users_are_mapped
  (w : Provider) (es : list event) (s : StoryState)
  (data : list UserRecord.t) :
  isUsersLoading (rendered w) = false ->
  users (rendered w) = [] ->
  forallb not_users es = true ->
  let w' := run (LoadUsers :: es ++ [SettleUsers (Resolved data); Render s]) w in
  users (rendered w') =
    map (fun d => {| SelectOption.value := UserRecord.id d;
                     SelectOption.name := UserRecord.name d |}) data /\
  List.length (users (rendered w')) = List.length data /\
  isUsersLoading (rendered w') = false.
Proof.
  intros H1 H2 Hes w'. subst w'.
  rewrite run_cons, run_app. simpl step.
  rewrite (loadUsers_fires w H1 H2).
  set (w1 := Build_Provider _ _ _ _ _ _ _ _ _ _).
  destruct (run_not_users es w1 Hes) as [A B C D].
  rewrite run_cons, run_cons. simpl run. simpl step.
  rewrite render_rendered. unfold settleUsers.
  rewrite D. simpl. rewrite length_map. repeat split; reflexivity.
Qed.

Lemma step_statuses_populated (e : event) (w : Provider) :
  statuses (rendered w) <> [] ->
  statuses (cells w) <> [] ->
  statuses_pending w = 0%nat ->
  statuses (rendered (step e w)) <> [] /\
  statuses (cells (step e w)) = statuses (cells w) /\
  statuses_pending (step e w) = 0%nat /\
  getAllStatuses_calls (step e w) = getAllStatuses_calls w.
Proof.
  intros Hr Hc Hp. destruct e as [s|t| | |o|o|h]; cbn [step].
  - rewrite render_rendered. destruct (render_counters s w) as [A [_ [B _]]].
    rewrite A, B.
    destruct (render_cells s w) as [H|H]; rewrite H; auto.
  - auto.
  - unfold loadStatuses.
    replace (List.length (statuses (rendered w)) =? 0)%nat with false
      by (destruct (statuses (rendered w)); [congruence|reflexivity]).
    rewrite andb_false_r. auto.
  - unfold loadUsers. destruct (_ && _); auto.
  - unfold settleStatuses. rewrite Hp. auto.
  - unfold settleUsers. destruct (users_pending w); [auto|].
    destruct o; auto.
  - auto.
Qed.

Lemma step_users_populated (e : event) (w : Provider) :
  users (rendered w) <> [] ->
  users (cells w) <> [] ->
  users_pending w = 0%nat ->
  users (rendered (step e w)) <> [] /\
  users (cells (step e w)) = users (cells w) /\
  users_pending (step e w) = 0%nat /\
  getAllUsers_calls (step e w) = getAllUsers_calls w.
Proof.
  intros Hr Hc Hp. destruct e as [s|t| | |o|o|h]; cbn [step].
  - rewrite render_rendered. destruct (render_counters s w) as [_ [A [_ B]]].
    rewrite A, B.
    destruct (render_cells s w) as [H|H]; rewrite H; auto.
  - auto.
  - unfold loadStatuses. destruct (_ && _); auto.
  - unfold loadUsers.
    replace (List.length (users (rendered w)) =? 0)%nat with false
      by (destruct (users (rendered w)); [congruence|reflexivity]).
    rewrite andb_false_r. auto.
  - unfold settleStatuses. destruct (statuses_pending w); [auto|].
    destruct o; auto.
  - unfold settleUsers. rewrite Hp. auto.
  - auto.
Qed.

(** Once a list is populated, rendered, and no fetch of it is in flight, no
    sequence of renders, tab changes, resizes, settlements and calls of the
    load actions made through the callbacks of the latest render (the ones
    the context hands out) invokes its fetch capability again or changes
    the list: there is no invalidation.  A callback kept from an earlier
    render is not among these events.  This holds for the statuses and for
    the users. *)
Theorem populated_list_is_never_refetched (w : Provider) (es : list event) :
  (statuses (rendered w) <> [] ->
   statuses (cells w) <> [] ->
   statuses_pending w = 0%nat ->
   getAllStatuses_calls (run es w) = getAllStatuses_calls w /\
   statuses (cells (run es w)) = statuses (cells w))
  /\
  (users (rendered w) <> [] ->
   users (cells w) <> [] ->
   users_pending w = 0%nat ->
   getAllUsers_calls (run es w) = getAllUsers_calls w /\
   users (cells (run es w)) = users (cells w)).
Proof.
  split.
  - revert w. induction es as [|e es IH]; intros w Hr Hc Hp; [now split|].
    rewrite run_cons.
    destruct (step_statuses_populated e w Hr Hc Hp) as [A [B [C D]]].
    destruct (IH (step e w) A) as [E F]; [congruence|exact C|].
    split; congruence.
  - revert w. induction es as [|e es IH]; intros w Hr Hc Hp; [now split|].
    rewrite run_cons.
    destruct (step_users_populated e w Hr Hc Hp) as [A [B [C D]]].
    destruct (IH (step e w) A) as [E F]; [congruence|exact C|].
    split; congruence.
Qed.

(** A fetch that resolves with nothing to list leaves the list empty, and
    the list being empty is all the guard looks at: after the next render a
    call fetches again.  For the statuses this is a response in which no
    record has a truthy [show_in_list]; for the users, an empty response. *)
Theorem empty_result_is_fetched_again
  (w : Provider) (es : list event) (s : StoryState)
  (statuses_data : JS.object StatusRecord.t) :
  (isStatusesLoading (rendered w) = false ->
   statuses (rendered w) = [] ->
   forallb not_statuses es = true ->
   filter (fun d => JS.truthy (StatusRecord.show_in_list d))
          (JS.Object_values statuses_data) = [] ->
   let w' := run (LoadStatuses :: es
                    ++ [SettleStatuses (Resolved statuses_data); Render s]) w in
   statuses (rendered w') = [] /\
   getAllStatuses_calls w' = S (getAllStatuses_calls w) /\
   getAllStatuses_calls (loadStatuses w') = S (S (getAllStatuses_calls w)))
  /\
  (isUsersLoading (rendered w) = false ->
   users (rendered w) = [] ->
   forallb not_users es = true ->
   let w' := run (LoadUsers :: es ++ [SettleUsers (Resolved []); Render s]) w in
   users (rendered w') = [] /\
   getAllUsers_calls w' = S (getAllUsers_calls w) /\
   getAllUsers_calls (loadUsers w') = S (S (getAllUsers_calls w))).
Proof.
  split.
  - intros H1 H2 Hes Hd w'. subst w'.
    rewrite run_cons, run_app. simpl step.
    rewrite (loadStatuses_fires w H1 H2).
    set (w1 := Build_Provider _ _ _ _ _ _ _ _ _ _).
    destruct (run_not_statuses es w1 Hes) as [A B C D].
    simpl in A, B, C, D.
    rewrite run_cons, run_cons. simpl run. simpl step.
    unfold loadStatuses. rewrite !render_rendered.
    destruct (render_counters s (settleStatuses (Resolved statuses_data)
                                   (Inspector.run es w1))) as [E _].
    rewrite E. unfold settleStatuses. rewrite D. simpl.
    unfold statuses_then. simpl. rewrite Hd. simpl.
    repeat split; congruence.
  - intros H1 H2 Hes w'. subst w'.
    rewrite run_cons, run_app. simpl step.
    rewrite (loadUsers_fires w H1 H2).
    set (w1 := Build_Provider _ _ _ _ _ _ _ _ _ _).
    destruct (run_not_users es w1 Hes) as [A B C D].
    simpl in A, B, C, D.
    rewrite run_cons, run_cons. simpl run. simpl step.
    unfold loadUsers. rewrite !render_rendered.
    destruct (render_counters s (settleUsers (Resolved [])
                                   (Inspector.run es w1))) as [_ [E _]].
    rewrite E. unfold settleUsers. rewrite D. simpl.
    repeat split; congruence.
Qed.

(** Events other than calls of [loadStatuses] and settlements of its promise
    (renders, tab changes, resizes, everything about the users) never touch
    the statuses list, its loading flag or its fetch; and likewise with the
    two lists exchanged. *)
Theorem lists_are_independent (w : Provider) (es : list event) :
  (forallb not_statuses es = true ->
   statuses (cells (run es w)) = statuses (cells w) /\
   isStatusesLoading (cells (run es w)) = isStatusesLoading (cells w) /\
   getAllStatuses_calls (run es w) = getAllStatuses_calls w /\
   statuses_pending (run es w) = statuses_pending w)
  /\
  (forallb not_users es = true ->
   users (cells (run es w)) = users (cells w) /\
   isUsersLoading (cells (run es w)) = isUsersLoading (cells w) /\
   getAllUsers_calls (run es w) = getAllUsers_calls w /\
   users_pending (run es w) = users_pending w).
Proof.
  split; intros Hes.
  - destruct (run_not_statuses es w Hes) as [A B C D]. auto.
  - destruct (run_not_users es w Hes) as [A B C D]. auto.
Qed.

Lemma step_flags (e : event) (w : Provider) :
  ((isStatusesLoading (cells w) = true -> 0 < statuses_pending w) /\
   (isUsersLoading (cells w) = true -> 0 < users_pending w) /\
   statuses_pending w <= getAllStatuses_calls w /\
   users_pending w <= getAllUsers_calls w)%nat ->
  ((isStatusesLoading (cells (step e w)) = true
    -> 0 < statuses_pending (step e w)) /\
   (isUsersLoading (cells (step e w)) = true -> 0 < users_pending (step e w)) /\
   statuses_pending (step e w) <= getAllStatuses_calls (step e w) /\
   users_pending (step e w) <= getAllUsers_calls (step e w))%nat.
Proof.
  intros [A [B [C D]]]. destruct e as [s|t| | |o|o|h]; cbn [step].
  - destruct (render_counters s w) as [E1 [E2 [E3 E4]]].
    rewrite E1, E2, E3, E4.
    destruct (render_cells s w) as [H|H]; rewrite H; auto.
  - auto.
  - unfold loadStatuses. destruct (_ && _); simpl; [|auto].
    repeat split; auto; lia.
  - unfold loadUsers. destruct (_ && _); simpl; [|auto].
    repeat split; auto; lia.
  - unfold settleStatuses. destruct (statuses_pending w) eqn:E;
      [rewrite E; auto|].
    destruct o; simpl; repeat split; auto; try (intros; discriminate); lia.
  - unfold settleUsers. destruct (users_pending w) eqn:E;
      [rewrite E; auto|].
    destruct o; simpl; repeat split; auto; try (intros; discriminate); lia.
  - auto.
Qed.

(** Throughout the lifetime of the provider, a raised loading flag means a
    fetch of that list is still pending, so the flag comes down when the
    fetch settles; and no more fetches are pending than were started. *)
Theorem raised_flag_has_pending_fetch (w : Provider) :
  reachable w ->
  ((isStatusesLoading (cells w) = true -> 0 < statuses_pending w) /\
   (isUsersLoading (cells w) = true -> 0 < users_pending w) /\
   statuses_pending w <= getAllStatuses_calls w /\
   users_pending w <= getAllUsers_calls w)%nat.
Proof.
  induction 1 as [s|e w Hw IH].
  - unfold mount. destruct (render_counters s unmounted) as [E1 [E2 [E3 E4]]].
    rewrite E1, E2, E3, E4.
    destruct (render_cells s unmounted) as [H|H]; rewrite H; simpl;
      repeat split; auto; discriminate.
  - apply step_flags, IH.
Qed.

End InspectorLoading.

Section InspectorLoadingExamples.

Import Inspector Samples MoreSamples.

(** The one user of the sample response is listed under its id. *)
Lemma resolved_users_are_mapped_witness :
  let w' := run (LoadUsers :: [Render story_none]
                   ++ [SettleUsers (Resolved users_response);
                       Render story_none]) (mount story_none) in
  users (rendered w') =
    [ {| SelectOption.value := 1; SelectOption.name := "admin" |} ] /\
  List.length (users (rendered w')) = 1%nat /\
  isUsersLoading (rendered w') = false.
Proof.
  apply (resolved_users_are_mapped (mount story_none) [Render story_none]
           story_none users_response); reflexivity.
Defined.

(** With both lists loaded, further calls and a stray settlement change
    nothing. *)
Lemma populated_list_is_never_refetched_witness :
  let w := run [LoadStatuses; LoadUsers;
                SettleStatuses (Resolved statuses_response);
                SettleUsers (Resolved users_response);
                Render story_none] (mount story_none) in
  let es := [LoadStatuses; LoadUsers; Render story_a; LoadStatuses;
             SettleStatuses (Resolved statuses_unlisted);
             SettleUsers Rejected; LoadUsers] in
  (getAllStatuses_calls (run es w) = 1%nat /\
   statuses (cells (run es w)) = statuses (cells w)) /\
  (getAllUsers_calls (run es w) = 1%nat /\
   users (cells (run es w)) = users (cells w)).
Proof.
  intros w es.
  destruct (populated_list_is_never_refetched w es) as [Hs Hu].
  split.
  - apply Hs; [discriminate|discriminate|reflexivity].
  - apply Hu; [discriminate|discriminate|reflexivity].
Defined.

(** A response with nothing listed, and an empty users response: both are
    fetched a second time. *)
Lemma empty_result_is_fetched_again_witness :
  (let w' := run (LoadStatuses :: [Render story_none]
                    ++ [SettleStatuses (Resolved statuses_unlisted);
                        Render story_none]) (mount story_none) in
   statuses (rendered w') = [] /\
   getAllStatuses_calls w' = 1%nat /\
   getAllStatuses_calls (loadStatuses w') = 2%nat)
  /\
  (let w' := run (LoadUsers :: [Render story_none]
                    ++ [SettleUsers (Resolved []); Render story_none])
               (mount story_none) in
   users (rendered w') = [] /\
   getAllUsers_calls w' = 1%nat /\
   getAllUsers_calls (loadUsers w') = 2%nat).
Proof.
  destruct (empty_result_is_fetched_again (mount story_none)
              [Render story_none] story_none statuses_unlisted) as [Hs Hu].
  split.
  - apply Hs; reflexivity.
  - apply Hu; reflexivity.
Defined.

(** Loading the users while the statuses are in flight leaves the statuses
    as they are, and the other way round. *)
Lemma lists_are_independent_witness :
  let w := run [LoadStatuses; LoadUsers; Render story_none]
             (mount story_none) in
  (isStatusesLoading
     (cells (run [SettleUsers (Resolved users_response); Render story_a;
                  LoadUsers] w)) = true /\
   statuses_pending
     (run [SettleUsers (Resolved users_response); Render story_a;
           LoadUsers] w) = 1%nat) /\
  (isUsersLoading
     (cells (run [SettleStatuses Rejected; SetTab DOCUMENT; LoadStatuses] w))
   = true /\
   users_pending
     (run [SettleStatuses Rejected; SetTab DOCUMENT; LoadStatuses] w) = 1%nat).
Proof.
  intros w. split.
  - destruct (lists_are_independent w
                [SettleUsers (Resolved users_response); Render story_a;
                 LoadUsers]) as [H _].
    destruct (H eq_refl) as [_ [A [_ B]]]. split; [exact A|exact B].
  - destruct (lists_are_independent w
                [SettleStatuses Rejected; SetTab DOCUMENT; LoadStatuses])
      as [_ H].
    destruct (H eq_refl) as [_ [A [_ B]]]. split; [exact A|exact B].
Defined.

(** Two calls in one render: the flag is up and two fetches are pending. *)
Lemma raised_flag_has_pending_fetch_witness :
  let w := run [LoadStatuses; LoadStatuses] (mount story_none) in
  isStatusesLoading (cells w) = true /\
  (0 < statuses_pending w)%nat /\
  (statuses_pending w <= getAllStatuses_calls w)%nat.
Proof.
  intros w.
  destruct (raised_flag_has_pending_fetch w) as [A [_ [C _]]].
  - apply (reachable_step LoadStatuses), (reachable_step LoadStatuses),
      reachable_mount.
  - split; [reflexivity|]. split; [exact (A eq_refl)|exact C].
Defined.

End InspectorLoadingExamples.

(** ** PHP arrays: merging twice *)

Section ArrayMergeFacts.

Import PHP Observations.

Lemma array_set_absent (a : array) (k : key) (v : val) :
  ~ In k (map fst a) -> array_set a k v = (a ++ [(k, v)])%list.
Proof.
  induction a as [|[k0 v0] a IH]; simpl; intros H; [reflexivity|].
  destruct (key_eqb_spec k0 k); [tauto|]. rewrite IH; tauto.
Qed.

Lemma array_set_present (p q : array) (k : key) (v v' : val) :
  ~ In k (map fst p) ->
  array_set (p ++ (k, v) :: q)%list k v' = (p ++ (k, v') :: q)%list.
Proof.
  induction p as [|[k0 v0] p IH]; simpl; intros H.
  - now rewrite key_eqb_refl.
  - destruct (key_eqb_spec k0 k); [tauto|]. rewrite IH; tauto.
Qed.

(** The keys after [$a[k] = v]: as before, or with [k] at the end. *)
Lemma array_set_keys (a : array) (k : key) (v : val) :
  (In k (map fst a) /\ map fst (array_set a k v) = map fst a) \/
  (~ In k (map fst a) /\ map fst (array_set a k v) = (map fst a ++ [k])%list).
Proof.
  induction a as [|[k0 v0] a IH]; simpl.
  - right. split; [tauto|reflexivity].
  - destruct (key_eqb_spec k0 k) as [->|Hne]; simpl.
    + left. split; [now left|reflexivity].
    + destruct IH as [[Hin E]|[Hn E]]; rewrite E.
      * left. split; [now right|reflexivity].
      * right. split; [tauto|reflexivity].
Qed.

Lemma int_keys_app (ks1 ks2 : list key) :
  int_keys (ks1 ++ ks2) = (int_keys ks1 ++ int_keys ks2)%list.
Proof.
  induction ks1 as [|[i|s] ks1 IH]; simpl; congruence.
Qed.

Lemma int_keys_names (ks : list key) :
  forallb is_name ks = true -> int_keys ks = [].
Proof.
  induction ks as [|[i|s] ks IH]; simpl; auto; discriminate.
Qed.

Lemma In_int_keys (i : Z) (ks : list key) :
  In (KInt i) ks -> In i (int_keys ks).
Proof.
  induction ks as [|[j|s] ks IH]; simpl; [tauto| |].
  - intros [E|H]; [left; congruence|right; auto].
  - intros [E|H]; [discriminate|auto].
Qed.

Lemma count_from_snoc (len : nat) :
  forall n, (count_from n len ++ [n + Z.of_nat len])%list = count_from n (S len).
Proof.
  induction len as [|len IH]; intros n.
  - simpl. now rewrite Z.add_0_r.
  - change (count_from n (S len)) with (n :: count_from (n + 1) len).
    change (count_from n (S (S len))) with (n :: count_from (n + 1) (S len)).
    replace (n + Z.of_nat (S len)) with (n + 1 + Z.of_nat len) by lia.
    cbn [app]. now rewrite IH.
Qed.

Lemma In_count_from (len : nat) :
  forall n i, In i (count_from n len) -> n <= i < n + Z.of_nat len.
Proof.
  induction len as [|len IH]; intros n i; simpl; [tauto|].
  intros [<-|H]; [lia|]. apply IH in H. lia.
Qed.

(** Merging an array whose keys are names, none of them bound yet, appends
    it and leaves the counter alone. *)
Lemma merge_into_names (l : array) :
  forall acc n,
    forallb is_name (map fst l) = true ->
    NoDup (map fst (acc ++ l)) ->
    merge_into acc n l = ((acc ++ l)%list, n).
Proof.
  induction l as [|[k v] l IH]; intros acc n Hn Hd; simpl.
  - now rewrite app_nil_r.
  - simpl in Hn. destruct k as [i|s]; [discriminate|].
    rewrite map_app in Hd. simpl in Hd.
    pose proof (NoDup_remove_2 _ _ _ Hd) as Hk.
    rewrite array_set_absent by (intros H; apply Hk, in_or_app; now left).
    rewrite IH; [now rewrite <- app_assoc|exact Hn|].
    rewrite <- app_assoc, map_app. exact Hd.
Qed.

(** Merging entries under the names of a part of the result so far
    overwrites that part in place. *)
Lemma merge_into_overwrite (q : array) :
  forall q' p n t,
    map fst q' = map fst q ->
    forallb is_name (map fst q) = true ->
    NoDup (map fst (p ++ q)) ->
    merge_into (p ++ q)%list n (q' ++ t)%list = merge_into (p ++ q')%list n t.
Proof.
  induction q as [|[k v] q IH]; intros q' p n t Hk Hn Hd.
  - destruct q'; [reflexivity|discriminate].
  - destruct q' as [|[k' v'] q']; [discriminate|].
    simpl in Hk. inversion Hk as [[Hk1 Hk2]]. subst k'.
    simpl in Hn. destruct k as [i|s]; [discriminate|].
    simpl. rewrite map_app in Hd. simpl in Hd.
    pose proof (NoDup_remove_2 _ _ _ Hd) as Hnot.
    rewrite array_set_present
      by (intros H; apply Hnot, in_or_app; now left).
    replace (p ++ (KStr s, v') :: q)%list
      with ((p ++ [(KStr s, v')]) ++ q)%list by now rewrite <- app_assoc.
    rewrite (IH q' (p ++ [(KStr s, v')])%list n t Hk2 Hn).
    + now rewrite <- app_assoc.
    + rewrite <- app_assoc, map_app. exact Hd.
Qed.

(** Merging entries whose keys are new and whose integer keys already count
    up from the counter appends them as they are. *)
Lemma merge_into_rebuild (t : array) :
  forall acc n,
    NoDup (map fst (acc ++ t)) ->
    int_keys (map fst t)
    = count_from n (List.length (int_keys (map fst t))) ->
    fst (merge_into acc n t) = (acc ++ t)%list.
Proof.
  induction t as [|[k v] t IH]; intros acc n Hd Hi; simpl.
  - now rewrite app_nil_r.
  - rewrite map_app in Hd. simpl in Hd.
    pose proof (NoDup_remove_2 _ _ _ Hd) as Hk.
    destruct k as [i|s]; simpl in Hi.
    + inversion Hi as [[Hin Hrest]]. rewrite <- Hin.
      rewrite IH; [now rewrite <- app_assoc| |].
      * rewrite <- app_assoc, map_app. exact Hd.
      * rewrite <- Hin in Hrest. exact Hrest.
    + rewrite array_set_absent by (intros H; apply Hk, in_or_app; now left).
      rewrite IH; [now rewrite <- app_assoc| |exact Hi].
      rewrite <- app_assoc, map_app. exact Hd.
Qed.

(** What merging keeps true of the result so far: its keys are distinct,
    start with the keys [kd], and its integer keys count up from 0 to the
    counter. *)
Lemma merge_into_shape (kd : list key) (l : array) :
  forall acc (m : nat),
    NoDup (map fst acc) ->
    (exists rest, map fst acc = (kd ++ rest)%list) ->
    int_keys (map fst acc) = count_from 0 m ->
    let r := merge_into acc (Z.of_nat m) l in
    NoDup (map fst (fst r)) /\
    (exists rest, map fst (fst r) = (kd ++ rest)%list) /\
    exists m', int_keys (map fst (fst r)) = count_from 0 m'.
Proof.
  induction l as [|[k v] l IH]; intros acc m Hd Hp Hi; simpl.
  - repeat split; auto. now exists m.
  - destruct k as [i|s].
    + replace (Z.of_nat m + 1) with (Z.of_nat (S m)) by lia.
      apply IH.
      * rewrite map_app. simpl. apply NoDup_app; auto.
        -- repeat constructor. simpl. tauto.
        -- intros x Hx1 [<-|[]].
           apply In_int_keys in Hx1. rewrite Hi in Hx1.
           apply In_count_from in Hx1. lia.
      * destruct Hp as [rest Hp]. exists (rest ++ [KInt (Z.of_nat m)])%list.
        rewrite map_app, Hp. simpl. now rewrite <- app_assoc.
      * rewrite map_app, int_keys_app, Hi. cbn [map fst int_keys].
        exact (count_from_snoc m 0).
    + destruct (array_set_keys acc (KStr s) v) as [[Hin E]|[Hn E]].
      * apply IH; rewrite E; auto.
      * apply IH; rewrite E.
        -- apply NoDup_app; auto.
           ++ repeat constructor. simpl. tauto.
           ++ intros x Hx1 [<-|[]]. contradiction.
        -- destruct Hp as [rest Hp]. exists (rest ++ [KStr s])%list.
           now rewrite Hp, <- app_assoc.
        -- rewrite int_keys_app, Hi. simpl. now rewrite app_nil_r.
Qed.

(** [array_merge] of defaults with what [array_merge] of the same defaults
    returned changes nothing, when the keys of the defaults are distinct
    names. *)
Lemma array_merge_again (d ext merged : array) :
  forallb is_name (map fst d) = true ->
  NoDup (map fst d) ->
  array_merge (PArr d) (PArr ext) = Some (PArr merged) ->
  array_merge (PArr d) (PArr merged) = Some (PArr merged).
Proof.
  intros Hn Hd. unfold array_merge.
  rewrite (merge_into_names d [] 0 Hn Hd). simpl app.
  intros E. inversion E as [E']. rewrite E'. f_equal. f_equal.
  destruct (merge_into_shape (map fst d) ext d 0 Hd) as [Hd' [[rest Hp] [m' Hi]]].
  { exists []. now rewrite app_nil_r. }
  { now rewrite (int_keys_names _ Hn). }
  simpl in Hd', Hp, Hi. rewrite E' in Hd', Hp, Hi.
  set (len := List.length d).
  assert (Hsplit : merged = (firstn len merged ++ skipn len merged)%list)
    by now rewrite firstn_skipn.
  assert (Hf : map fst (firstn len merged) = map fst d).
  { rewrite <- firstn_map, Hp. subst len.
    rewrite <- (length_map fst d), firstn_app, Nat.sub_diag, firstn_all.
    simpl. now rewrite app_nil_r. }
  assert (Hs : map fst (skipn len merged) = rest).
  { rewrite <- skipn_map, Hp. subst len.
    rewrite <- (length_map fst d), skipn_app, Nat.sub_diag, skipn_all.
    reflexivity. }
  rewrite Hsplit at 1.
  change d with ([] ++ d)%list at 1.
  rewrite (merge_into_overwrite d (firstn len merged) [] 0 _ Hf Hn Hd).
  simpl app. rewrite merge_into_rebuild.
  - symmetry. exact Hsplit.
  - rewrite <- Hsplit. exact Hd'.
  - rewrite Hs. rewrite Hp, int_keys_app, (int_keys_names _ Hn) in Hi.
    simpl in Hi. rewrite Hi at 1. f_equal.
    rewrite Hi. clear. generalize 0. induction m'; intros n; simpl; auto.
Qed.

End ArrayMergeFacts.

(** ** Analytics: printing, Site Kit and the filter *)

Section AnalyticsMore.

Import PHP Analytics Observations.

Variable SETTING_NAME_TRACKING_ID : string.
Variable POST_TYPE_SLUG : string.

Local Abbreviation print_analytics_tag :=
  (print_analytics_tag SETTING_NAME_TRACKING_ID).
Local Abbreviation get_tracking_id := (get_tracking_id SETTING_NAME_TRACKING_ID).
Local Abbreviation filter_site_kit_gtag_opt :=
  (filter_site_kit_gtag_opt POST_TYPE_SLUG).

Lemma string_to_bool_false (s : string) :
  string_to_bool s = false <-> s = EmptyString \/ s = "0".
Proof.
  unfold string_to_bool.
  destruct (String.eqb_spec s EmptyString), (String.eqb_spec s "0"); simpl;
    split; intros H; auto; try discriminate; destruct H; contradiction.
Qed.

(** [print_analytics_tag] never fails.  It prints nothing when Site Kit's
    analytics module is active, whatever the tracking ID, and nothing when
    the tracking ID is empty or "0"; otherwise it prints exactly one element
    of type gtag whose configuration is what the callbacks on the
    configuration filter made of the literal, cast to an array, unchecked. *)
Theorem print_analytics_tag_cases (wp : WordPress) :
  (is_site_kit_analytics_module_active wp = true ->
   print_analytics_tag wp = Some []) /\
  (get_tracking_id wp = EmptyString \/ get_tracking_id wp = "0" ->
   print_analytics_tag wp = Some []) /\
  (is_site_kit_analytics_module_active wp = false ->
   get_tracking_id wp <> EmptyString ->
   get_tracking_id wp <> "0" ->
   exists literal,
     default_config (PStr (get_tracking_id wp)) = Some literal /\
     print_analytics_tag wp =
       Some [ {| attr_type := "gtag"; attr_data_credentials := "include";
                 script := to_array (apply_filters wp literal) |} ]).
Proof.
  unfold Analytics.print_analytics_tag. repeat split.
  - intros ->. reflexivity.
  - intros H. apply string_to_bool_false in H. rewrite H.
    destruct (is_site_kit_analytics_module_active wp); reflexivity.
  - intros -> H1 H2.
    destruct (string_to_bool (get_tracking_id wp)) eqn:E.
    + simpl. eexists. split; reflexivity.
    + apply string_to_bool_false in E. tauto.
Qed.

(** Site Kit's analytics module counts as active exactly when Site Kit is
    loaded and ['analytics'] is among the modules of the option
    [googlesitekit_active_modules], or, only if that option holds no array,
    among those of the legacy option [googlesitekit-active-modules]. *)
Theorem site_kit_module_active_iff (wp : WordPress) :
  is_site_kit_analytics_module_active wp = true <->
  GOOGLESITEKIT_VERSION wp = true /\
  exists modules,
    in_array_strict "analytics" modules = true /\
    (get_option wp "googlesitekit_active_modules" = PArr modules \/
     (is_array (get_option wp "googlesitekit_active_modules") = false /\
      get_option wp "googlesitekit-active-modules" = PArr modules)).
Proof.
  unfold is_site_kit_analytics_module_active,
    get_site_kit_active_modules_option.
  destruct (GOOGLESITEKIT_VERSION wp); cbn [negb].
  2: { split; [discriminate|]. intros [H _]. discriminate. }
  destruct (get_option wp "googlesitekit_active_modules") as [|b0|i0|s0|a];
    cbn [is_array to_array].
  5: { split.
       - intros H. split; [reflexivity|]. exists a. split; [exact H|now left].
       - intros [_ [m [Hm [Hc|[Hc _]]]]]; [|discriminate].
         inversion Hc; subst. exact Hm. }
  all: destruct (get_option wp "googlesitekit-active-modules")
         as [|b1|i1|s1|legacy];
    cbn [is_array to_array];
    (split;
     [ intros H; simpl in H;
       first [ discriminate H
             | split; [reflexivity|]; exists legacy;
               split; [exact H|right; split; reflexivity] ]
     | intros [_ [m [Hm [Hc|[_ Hc]]]]];
       first [ discriminate Hc | inversion Hc; subst; exact Hm ] ]).
Qed.

(** Without callbacks on the configuration filter, the configuration built
    for a tracking ID names that ID in [vars.gtag_id], and every one of its
    triggers sends to it. *)
Theorem configuration_sends_to_tracking_id
  (wp : WordPress) (tracking_id : val) (cfg : array) :
  web_stories_analytics_configuration wp = [] ->
  get_default_configuration wp tracking_id = Some cfg ->
  read (to_array (read cfg (KStr "vars"))) (KStr "gtag_id") = tracking_id /\
  Forall (fun entry => trigger_send_to (snd entry) = tracking_id)
         (to_array (read cfg (KStr "triggers"))).
Proof.
  intros Hcb. rewrite (get_default_configuration_unfiltered wp _ Hcb).
  unfold default_config. destruct (key_of_value tracking_id); [|discriminate].
  intros E. inversion E; subst cfg. split; [reflexivity|].
  repeat constructor.
Qed.

(** Without callbacks, the defaults of the merge are the literal. *)
Lemma unfiltered_defaults (wp : WordPress) (gtag_id : val) :
  web_stories_analytics_configuration wp = [] ->
  key_of_value gtag_id <> None ->
  exists cfg,
    get_default_configuration wp gtag_id = Some cfg /\
    isset cfg (KStr "triggers") = true /\
    read cfg (KStr "triggers") = default_triggers gtag_id.
Proof.
  intros Hcb Hkey.
  rewrite (get_default_configuration_unfiltered wp gtag_id Hcb).
  unfold default_config. destruct (key_of_value gtag_id); [|congruence].
  eexists. split; [reflexivity|]. split; reflexivity.
Qed.

Lemma default_triggers_distinct_names (gtag_id : val) :
  forallb is_name (map fst (to_array (default_triggers gtag_id))) = true /\
  NoDup (map fst (to_array (default_triggers gtag_id))).
Proof.
  split; [reflexivity|].
  change (map fst (to_array (default_triggers gtag_id)))
    with (keys (default_triggers gtag_id)).
  rewrite default_trigger_keys.
  repeat (constructor; [simpl; intuition discriminate|]). constructor.
Qed.

(** Without callbacks, on a single story, the triggers of the returned
    configuration, looked up by name, are the passed-in trigger of that name
    if there is one and the synthesized trigger of that name otherwise;
    names that neither has are not bound. *)
Theorem merged_triggers_by_name
  (wp : WordPress) (gtag_opt : array) (gtag_id : val) (ext : array) :
  is_singular wp POST_TYPE_SLUG = true ->
  web_stories_analytics_configuration wp = [] ->
  offset (read gtag_opt (KStr "vars")) "gtag_id" = Some gtag_id ->
  key_of_value gtag_id <> None ->
  array_get gtag_opt (KStr "triggers") = Some (PArr ext) ->
  NoDup (map fst ext) ->
  exists merged,
    filter_site_kit_gtag_opt wp gtag_opt =
      Some (array_set gtag_opt (KStr "triggers") (PArr merged)) /\
    forall s,
      array_get merged (KStr s) =
        match array_get ext (KStr s) with
        | Some v => Some v
        | None => array_get (to_array (default_triggers gtag_id)) (KStr s)
        end.
Proof.
  intros Hs Hcb Hid Hkey Hext Hd.
  destruct (unfiltered_defaults wp gtag_id Hcb Hkey) as [cfg [Hcfg [Hi Hr]]].
  rewrite (filter_on_story POST_TYPE_SLUG wp gtag_opt gtag_id cfg Hs Hid Hcfg).
  rewrite Hi, Hr.
  assert (Hi' : isset gtag_opt (KStr "triggers") = true)
    by (unfold isset; now rewrite Hext).
  assert (Hr' : read gtag_opt (KStr "triggers") = PArr ext)
    by (unfold read; now rewrite Hext).
  rewrite Hi', Hr'.
  destruct (default_triggers_distinct_names gtag_id) as [_ Hdd].
  change (default_triggers gtag_id)
    with (PArr (to_array (default_triggers gtag_id))) at 1.
  unfold array_merge.
  pose proof (fun s => merge_from_empty_get
                         (to_array (default_triggers gtag_id)) s Hdd) as Hfirst.
  destruct (merge_into [] 0 (to_array (default_triggers gtag_id))) as [r n].
  simpl in Hfirst.
  eexists. split; [reflexivity|]. intros s.
  destruct (array_get ext (KStr s)) as [v|] eqn:E.
  - now apply merge_into_present.
  - rewrite (merge_into_absent ext s (array_get_None ext _ E)). apply Hfirst.
Qed.

(** Without callbacks, on a single story, a configuration that has no
    triggers of its own gets exactly the synthesized triggers, in their
    order; when it has no ['triggers'] entry at all, the entry is added at
    the end. *)
Theorem filter_without_external_triggers
  (wp : WordPress) (gtag_opt : array) (gtag_id : val) :
  is_singular wp POST_TYPE_SLUG = true ->
  web_stories_analytics_configuration wp = [] ->
  offset (read gtag_opt (KStr "vars")) "gtag_id" = Some gtag_id ->
  key_of_value gtag_id <> None ->
  isset gtag_opt (KStr "triggers") = false ->
  filter_site_kit_gtag_opt wp gtag_opt =
    Some (array_set gtag_opt (KStr "triggers") (default_triggers gtag_id)) /\
  (array_get gtag_opt (KStr "triggers") = None ->
   filter_site_kit_gtag_opt wp gtag_opt =
     Some (gtag_opt ++ [(KStr "triggers", default_triggers gtag_id)])%list).
Proof.
  intros Hs Hcb Hid Hkey Hi'.
  destruct (unfiltered_defaults wp gtag_id Hcb Hkey) as [cfg [Hcfg [Hi Hr]]].
  rewrite (filter_on_story POST_TYPE_SLUG wp gtag_opt gtag_id cfg Hs Hid Hcfg).
  rewrite Hi, Hr, Hi'.
  change (array_merge (default_triggers gtag_id) (PArr []))
    with (Some (default_triggers gtag_id)).
  split; [reflexivity|].
  intros Hnone. now rewrite (array_set_absent _ _ _ (array_get_None _ _ Hnone)).
Qed.

(** Without callbacks, on a single story, a configuration in which no
    [vars.gtag_id] can be found (no ['vars'], or ['vars'] without that entry)
    is not refused: the tracking ID is taken to be null, and the synthesized
    triggers are added with [send_to] null. *)
Theorem filter_without_gtag_id (wp : WordPress) (gtag_opt : array) :
  is_singular wp POST_TYPE_SLUG = true ->
  web_stories_analytics_configuration wp = [] ->
  offset (read gtag_opt (KStr "vars")) "gtag_id" = Some PNull ->
  isset gtag_opt (KStr "triggers") = false ->
  filter_site_kit_gtag_opt wp gtag_opt =
    Some (array_set gtag_opt (KStr "triggers") (default_triggers PNull)) /\
  Forall (fun entry => trigger_send_to (snd entry) = PNull)
         (to_array (default_triggers PNull)).
Proof.
  intros Hs Hcb Hid Hi'.
  assert (Hkey : key_of_value PNull <> None) by discriminate.
  destruct (unfiltered_defaults wp PNull Hcb Hkey) as [cfg [Hcfg [Hi Hr]]].
  rewrite (filter_on_story POST_TYPE_SLUG wp gtag_opt PNull cfg Hs Hid Hcfg).
  rewrite Hi, Hr, Hi'. split; [reflexivity|]. repeat constructor.
Qed.

(** Without callbacks, filtering what the filter returned changes nothing:
    the hook may run twice on a configuration. *)
Theorem filter_twice_is_filter_once (wp : WordPress) (gtag_opt r : array) :
  web_stories_analytics_configuration wp = [] ->
  filter_site_kit_gtag_opt wp gtag_opt = Some r ->
  filter_site_kit_gtag_opt wp r = Some r.
Proof.
  intros Hcb H.
  destruct (is_singular wp POST_TYPE_SLUG) eqn:Hs.
  - assert (Hid : exists gtag_id,
               offset (read gtag_opt (KStr "vars")) "gtag_id" = Some gtag_id /\
               key_of_value gtag_id <> None).
    { unfold Analytics.filter_site_kit_gtag_opt in H. rewrite Hs in H.
      cbn [negb offset] in H.
      destruct (offset (read gtag_opt (KStr "vars")) "gtag_id") as [g|];
        [|discriminate].
      exists g. split; [reflexivity|].
      rewrite (get_default_configuration_unfiltered wp g Hcb) in H.
      unfold default_config in H. destruct (key_of_value g); discriminate. }
    destruct Hid as [gtag_id [Hid Hkey]].
    destruct (unfiltered_defaults wp gtag_id Hcb Hkey) as [cfg [Hcfg [Hi Hr]]].
    rewrite (filter_on_story POST_TYPE_SLUG wp gtag_opt gtag_id cfg Hs Hid Hcfg)
      in H.
    rewrite Hi, Hr in H.
    destruct (default_triggers_distinct_names gtag_id) as [Hn Hd].
    set (operand := if isset gtag_opt (KStr "triggers")
                    then read gtag_opt (KStr "triggers") else PArr []) in H.
    destruct (array_merge (default_triggers gtag_id) operand) as [merged|] eqn:Em;
      [|discriminate].
    inversion H; subst r. clear H.
    assert (Hm : exists ext m, operand = PArr ext /\ merged = PArr m).
    { unfold array_merge in Em.
      change (default_triggers gtag_id)
        with (PArr (to_array (default_triggers gtag_id))) in Em.
      destruct operand as [| | | |ext]; try discriminate.
      destruct (merge_into [] 0 _) as [r0 n0].
      inversion Em. now exists ext, (fst (merge_into r0 n0 ext)). }
    destruct Hm as [ext [m [Hop ->]]]. rewrite Hop in Em.
    assert (Hid' : offset (read (array_set gtag_opt (KStr "triggers") (PArr m))
                             (KStr "vars")) "gtag_id" = Some gtag_id).
    { unfold read. rewrite array_get_set_other by discriminate. exact Hid. }
    rewrite (filter_on_story POST_TYPE_SLUG wp _ gtag_id cfg Hs Hid' Hcfg).
    rewrite Hi, Hr. unfold isset, read. rewrite array_get_set_same.
    change (default_triggers gtag_id)
      with (PArr (to_array (default_triggers gtag_id))) in Em |- *.
    rewrite (array_merge_again _ ext m Hn Hd Em).
    now rewrite array_set_set.
  - unfold Analytics.filter_site_kit_gtag_opt in *. rewrite Hs in *.
    simpl in *. inversion H; subst. reflexivity.
Qed.

Lemma array_set_same (a : array) (k : key) (v : val) :
  array_get a k = Some v -> array_set a k v = a.
Proof.
  induction a as [|[k0 v0] a IH]; simpl; [discriminate|].
  destruct (key_eqb k0 k); intros H; [congruence|]. now rewrite IH.
Qed.

(** On a single story, when the callbacks on the configuration filter leave
    no triggers in the defaults, a configuration whose triggers all have
    distinct names is returned as it came. *)
Theorem filter_with_triggers_removed
  (wp : WordPress) (gtag_opt : array) (gtag_id : val) (cfg ext : array) :
  is_singular wp POST_TYPE_SLUG = true ->
  offset (read gtag_opt (KStr "vars")) "gtag_id" = Some gtag_id ->
  get_default_configuration wp gtag_id = Some cfg ->
  isset cfg (KStr "triggers") = false ->
  array_get gtag_opt (KStr "triggers") = Some (PArr ext) ->
  forallb is_name (map fst ext) = true ->
  NoDup (map fst ext) ->
  filter_site_kit_gtag_opt wp gtag_opt = Some gtag_opt.
Proof.
  intros Hs Hid Hcfg Hi Hext Hn Hd.
  rewrite (filter_on_story POST_TYPE_SLUG wp gtag_opt gtag_id cfg Hs Hid Hcfg).
  rewrite Hi.
  assert (Hi' : isset gtag_opt (KStr "triggers") = true)
    by (unfold isset; now rewrite Hext).
  assert (Hr' : read gtag_opt (KStr "triggers") = PArr ext)
    by (unfold read; now rewrite Hext).
  rewrite Hi', Hr'. unfold array_merge. cbn [merge_into].
  rewrite (merge_into_names ext [] 0 Hn Hd). simpl.
  now rewrite (array_set_same _ _ _ Hext).
Qed.

End AnalyticsMore.

Section AnalyticsMoreExamples.

Import PHP Analytics Observations Samples MoreSamples.

(** With Site Kit's analytics module active nothing is printed, although a
    tracking ID is configured; without Site Kit one element is. *)
Lemma print_analytics_tag_cases_witness :
  get_tracking_id "web_stories_ga_tracking_id" site_with_site_kit = "UA-123" /\
  print_analytics_tag "web_stories_ga_tracking_id" site_with_site_kit = Some []
  /\
  exists literal,
    default_config (PStr "UA-123") = Some literal /\
    print_analytics_tag "web_stories_ga_tracking_id" site_ua123 =
      Some [ {| attr_type := "gtag"; attr_data_credentials := "include";
                script := to_array literal |} ].
Proof.
  split; [reflexivity|]. split.
  - destruct (print_analytics_tag_cases "web_stories_ga_tracking_id"
                site_with_site_kit) as [H _].
    apply H. reflexivity.
  - destruct (print_analytics_tag_cases "web_stories_ga_tracking_id" site_ua123)
      as [_ [_ H]].
    apply H; [reflexivity|discriminate|discriminate].
Defined.

(** The sample site with Site Kit: loaded, and analytics among its
    modules. *)
Lemma site_kit_module_active_iff_witness :
  is_site_kit_analytics_module_active site_with_site_kit = true.
Proof.
  apply (site_kit_module_active_iff site_with_site_kit).
  split; [reflexivity|].
  exists [ (KInt 0, PStr "search-console"); (KInt 1, PStr "analytics") ].
  split; [reflexivity|]. left. reflexivity.
Defined.

(** The configuration built on the sample site for UA-123. *)
Lemma configuration_sends_to_tracking_id_witness :
  exists cfg,
    get_default_configuration site_ua123 (PStr "UA-123") = Some cfg /\
    read (to_array (read cfg (KStr "vars"))) (KStr "gtag_id") = PStr "UA-123" /\
    Forall (fun entry => trigger_send_to (snd entry) = PStr "UA-123")
           (to_array (read cfg (KStr "triggers"))).
Proof.
  eexists. split; [reflexivity|].
  apply (configuration_sends_to_tracking_id site_ua123 (PStr "UA-123"));
    reflexivity.
Defined.

(** Site Kit's sample configuration: its own storyEnd is kept, storyOpen
    comes from the defaults, and an unknown name is not bound. *)
Lemma merged_triggers_by_name_witness :
  exists merged,
    filter_site_kit_gtag_opt "web-story" site_ua123 site_kit_gtag_opt =
      Some (array_set site_kit_gtag_opt (KStr "triggers") (PArr merged)) /\
    array_get merged (KStr "storyEnd") = Some (PStr "external") /\
    array_get merged (KStr "storyOpen") =
      array_get (to_array (default_triggers (PStr "UA-123"))) (KStr "storyOpen")
    /\
    array_get merged (KStr "unknown") = None.
Proof.
  destruct (merged_triggers_by_name "web-story" site_ua123 site_kit_gtag_opt
              (PStr "UA-123") site_kit_triggers) as [merged [Hf Hm]].
  - reflexivity.
  - reflexivity.
  - reflexivity.
  - discriminate.
  - reflexivity.
  - repeat constructor; simpl; intuition discriminate.
  - exists merged. split; [exact Hf|].
    split; [exact (Hm "storyEnd")|].
    split; [exact (Hm "storyOpen")|exact (Hm "unknown")].
Defined.

(** A configuration without triggers gets the ten defaults, appended. *)
Lemma filter_without_external_triggers_witness :
  filter_site_kit_gtag_opt "web-story" site_ua123 gtag_opt_without_triggers =
    Some (gtag_opt_without_triggers
            ++ [(KStr "triggers", default_triggers (PStr "UA-123"))])%list.
Proof.
  destruct (filter_without_external_triggers "web-story" site_ua123
              gtag_opt_without_triggers (PStr "UA-123")) as [_ H].
  - reflexivity.
  - reflexivity.
  - reflexivity.
  - discriminate.
  - reflexivity.
  - apply H. reflexivity.
Defined.

(** A configuration without ['vars']: the defaults are added for a null
    tracking ID. *)
Lemma filter_without_gtag_id_witness :
  filter_site_kit_gtag_opt "web-story" site_ua123 gtag_opt_without_vars =
    Some (array_set gtag_opt_without_vars (KStr "triggers")
            (default_triggers PNull)).
Proof.
  apply (filter_without_gtag_id "web-story" site_ua123 gtag_opt_without_vars);
    reflexivity.
Defined.

(** A configuration with a numbered trigger: filtering the result again
    returns the result. *)
Lemma filter_twice_is_filter_once_witness :
  exists r,
    filter_site_kit_gtag_opt "web-story" site_ua123 gtag_opt_numbered = Some r /\
    filter_site_kit_gtag_opt "web-story" site_ua123 r = Some r.
Proof.
  eexists. split; [reflexivity|].
  apply (filter_twice_is_filter_once "web-story" site_ua123 gtag_opt_numbered);
    reflexivity.
Defined.

(** With the triggers removed from the defaults, Site Kit's sample
    configuration passes through. *)
Lemma filter_with_triggers_removed_witness :
  filter_site_kit_gtag_opt "web-story" site_triggers_removed site_kit_gtag_opt
  = Some site_kit_gtag_opt.
Proof.
  eapply (filter_with_triggers_removed "web-story" site_triggers_removed
            site_kit_gtag_opt (PStr "UA-123") _ site_kit_triggers).
  - reflexivity.
  - reflexivity.
  - reflexivity.
  - reflexivity.
  - reflexivity.
  - reflexivity.
  - repeat constructor; simpl; intuition discriminate.
Defined.

End AnalyticsMoreExamples.
